(** * go-apt-client: repository configuration and package operations

    A shallow embedding of the Go package [apt]: the repository
    configuration (Repository, its rendering and parsing, the config
    folder) and the operations of [apt.go], with the properties of the
    specification stated over it.

    Go strings are byte sequences; they are modelled by [string] (a list of
    8-bit [ascii] characters).  The file system and the external tools are
    modelled by explicit state passing. *)

From Stdlib Require Import ZArith Ascii String.
From stdpp Require Import base option list sorting gmap strings.

Local Open Scope string_scope.
Local Open Scope list_scope.

(** ** Byte strings *)

Module Str.

Fixpoint all (p : ascii -> bool) (s : string) : bool :=
  match s with
  | EmptyString => true
  | String a s' => p a && all p s'
  end.

(** [s[:n]] for [n <= len(s)]. *)
Fixpoint take (n : nat) (s : string) : string :=
  match n, s with
  | S n', String a s' => String a (take n' s')
  | _, _ => EmptyString
  end.

(** [strings.HasPrefix] as an option: the rest after the prefix. *)
Fixpoint strip_prefix (p s : string) : option string :=
  match p, s with
  | EmptyString, _ => Some s
  | String a p', String b s' =>
      if Ascii.eqb a b then strip_prefix p' s' else None
  | String _ _, EmptyString => None
  end.

Definition has_suffix (s suf : string) : bool :=
  bool_decide (String.substring (String.length s - String.length suf)
                 (String.length suf) s = suf)
  && (String.length suf <=? String.length s)%nat.

(** [strings.Split(s, sep)] for a one-byte separator: the pieces between
    the separators, always at least one piece. *)
Fixpoint split (sep : ascii) (s : string) : list string :=
  match s with
  | EmptyString => [EmptyString]
  | String a s' =>
      if Ascii.eqb a sep then EmptyString :: split sep s'
      else match split sep s' with
           | piece :: rest => String a piece :: rest
           | [] => [String a EmptyString]
           end
  end.

Definition join (sep : string) (l : list string) : string :=
  match l with
  | [] => EmptyString
  | x :: l' => fold_left (fun acc y => acc +:+ sep +:+ y) l' x
  end.

End Str.

(** ** Regular expressions with Go's leftmost-first semantics

    [regexp] returns, among the matches that begin leftmost, the one a
    backtracking search finds first.  The matcher below is that
    backtracking search, in continuation-passing style.  Repetition is
    applied to one-byte classes only, which is all the patterns of this
    package need.  All classes and literals of the patterns are ASCII, so
    matching bytes gives the same submatches as matching runes. *)

Module Regexp.

Inductive regex : Type :=
| Lit (s : string)               (* a literal text *)
| Cat (r1 r2 : regex)            (* r1r2 *)
| Alt (r1 r2 : regex)            (* r1|r2, prefers r1 *)
| Quest (r : regex)              (* r?, prefers one *)
| StarC (p : ascii -> bool)      (* [class]*, prefers more *)
| PlusC (p : ascii -> bool)      (* [class]+, prefers more *)
| Cap (n : nat) (r : regex)      (* n-th capturing group *)
| BeginText                      (* ^ without flag m *)
| EndText.                       (* $ without flag m *)

(** Submatches: index 0 is the whole match; a group that took no part
    in the match is the empty string, as in [FindAllStringSubmatch]. *)
Definition submatches := list string.

(** What follows a match: offset, rest of the text, submatches so far. *)
Definition cont := nat -> string -> submatches -> option submatches.

Fixpoint star (p : ascii -> bool) (i : nat) (s : string) (m : submatches)
    (k : cont) : option submatches :=
  match s with
  | String a s' =>
      if p a then
        match star p (S i) s' m k with
        | Some res => Some res
        | None => k i s m
        end
      else k i s m
  | EmptyString => k i s m
  end.

Fixpoint exec (r : regex) (i : nat) (s : string) (m : submatches)
    (k : cont) : option submatches :=
  match r with
  | Lit l =>
      match Str.strip_prefix l s with
      | Some s' => k (i + String.length l) s' m
      | None => None
      end
  | Cat r1 r2 => exec r1 i s m (fun i' s' m' => exec r2 i' s' m' k)
  | Alt r1 r2 =>
      match exec r1 i s m k with
      | Some res => Some res
      | None => exec r2 i s m k
      end
  | Quest r1 =>
      match exec r1 i s m k with
      | Some res => Some res
      | None => k i s m
      end
  | StarC p => star p i s m k
  | PlusC p =>
      match s with
      | String a s' => if p a then star p (S i) s' m k else None
      | EmptyString => None
      end
  | Cap n r1 =>
      exec r1 i s m (fun i' s' m' => k i' s' (<[n := Str.take (i' - i) s]> m'))
  | BeginText => if Nat.eqb i 0 then k i s m else None
  | EndText =>
      match s with
      | EmptyString => k i s m
      | String _ _ => None
      end
  end.

Fixpoint groups (r : regex) : nat :=
  match r with
  | Cat r1 r2 | Alt r1 r2 => Nat.max (groups r1) (groups r2)
  | Quest r1 => groups r1
  | Cap n r1 => Nat.max n (groups r1)
  | _ => 0
  end.

(** A match of [r] that begins at offset [i], where [s] is the text from
    [i] on. *)
Definition match_at (r : regex) (i : nat) (s : string) : option submatches :=
  exec r i s (replicate (S (groups r)) EmptyString)
    (fun i' _ m => Some (<[0 := Str.take (i' - i) s]> m)).

(** The leftmost match from offset [i] on. *)
Fixpoint find_from (r : regex) (i : nat) (s : string) : option submatches :=
  match match_at r i s with
  | Some m => Some m
  | None =>
      match s with
      | String _ s' => find_from r (S i) s'
      | EmptyString => None
      end
  end.

(** [re.FindStringSubmatch(text)]: the first element of
    [re.FindAllStringSubmatch(text, -1)], if there is one. *)
Definition FindStringSubmatch (r : regex) (text : string) : option submatches :=
  find_from r 0 text.

End Regexp.

Import Regexp.

Declare Scope regex_scope.
Delimit Scope regex_scope with re.
Infix "⋅" := Cat (at level 40, left associativity) : regex_scope.

(** The result of a call that returns [(value, error)]. *)
Inductive result (E A : Type) : Type :=
| Ok (a : A)
| Error (e : E).
Arguments Ok {E A} a.
Arguments Error {E A} e.

(** ** Repositories and their config lines *)

Record Repository : Type := mkRepository {
  Enabled : bool;
  SourceRepo : bool;
  Options : string;
  URI : string;
  Distribution : string;
  Components : string;
  Comment : string;
}.

Definition RepositoryList := list Repository.

Definition Equals (r repo : Repository) : bool :=
  if negb (String.eqb (Components r) (Components repo)) then false
  else if negb (String.eqb (Distribution r) (Distribution repo)) then false
  else if negb (String.eqb (URI r) (URI repo)) then false
  else if negb (Bool.eqb (SourceRepo r) (SourceRepo repo)) then false
  else if negb (String.eqb (Options r) (Options repo)) then false
  else true.

Fixpoint Contains (r : RepositoryList) (repo : Repository) : bool :=
  match r with
  | [] => false
  | i :: r' => if Equals repo i then true else Contains r' repo
  end.

(** [strings.TrimSpace(s) == ""]: every rune of [s] is white space
    ([unicode.IsSpace]).  The runes are read off the UTF-8 bytes; a byte
    that starts no white-space rune is not white space. *)
Fixpoint blank (s : string) : bool :=
  match s with
  | EmptyString => true
  | String "009" s' | String "010" s' | String "011" s'
  | String "012" s' | String "013" s' | String " " s' => blank s'
  | String "194" (String b s') =>                     (* U+0085, U+00A0 *)
      (Ascii.eqb b "133" || Ascii.eqb b "160") && blank s'
  | String "225" (String "154" (String "128" s')) => blank s'   (* U+1680 *)
  | String "226" (String "128" (String b s')) =>
      (* U+2000..U+200A, U+2028, U+2029, U+202F *)
      ((128 <=? nat_of_ascii b)%nat && (nat_of_ascii b <=? 138)%nat
       || Ascii.eqb b "168" || Ascii.eqb b "169" || Ascii.eqb b "175")
      && blank s'
  | String "226" (String "129" (String "159" s')) => blank s'   (* U+205F *)
  | String "227" (String "128" (String "128" s')) => blank s'   (* U+3000 *)
  | String _ _ => false
  end.

Definition APTConfigLine (r : Repository) : string :=
  let res := "" in
  let res := if negb (Enabled r) then "# " else res in
  let res := if SourceRepo r then res +:+ "deb-src " else res +:+ "deb " in
  let res :=
    if negb (blank (Options r)) then res +:+ ("[" +:+ Options r +:+ "]")
    else res in
  let res :=
    res +:+ (URI r +:+ " " +:+ Distribution r +:+ " " +:+ Components r) in
  let res :=
    if negb (blank (Comment r)) then res +:+ (" # " +:+ Comment r) else res in
  res.

Definition any_but_nl (a : ascii) : bool := negb (Ascii.eqb a "010").
Definition not_space (a : ascii) : bool := negb (Ascii.eqb a " ").
Definition not_hash_nl (a : ascii) : bool :=
  negb (Ascii.eqb a "#") && negb (Ascii.eqb a "010").
Definition space (a : ascii) : bool := Ascii.eqb a " ".

(** The pattern of [regexp.MustCompile] as a syntax tree: between ^ and $,
    an optional group 1 "# ", group 2 "deb" or "deb-src", the optional
    bracketed options, the groups 4, 5 and 6 each after one space, and the
    optional comment. *)

(** Space, "[", group 3 of any bytes but newline, "]". *)
Definition options_re : regex :=
  (Lit " [" ⋅ Cap 3 (StarC any_but_nl) ⋅ Lit "]")%re.

(** One or more spaces, "#", spaces, group 7 of any bytes but newline. *)
Definition comment_re : regex :=
  (PlusC space ⋅ Lit "#" ⋅ StarC space ⋅ Cap 7 (StarC any_but_nl))%re.

Definition aptConfigLineRegexp : regex :=
  (BeginText
   ⋅ Quest (Cap 1 (Lit "# "))
   ⋅ Cap 2 (Alt (Lit "deb") (Lit "deb-src"))
   ⋅ Quest options_re
   ⋅ Lit " " ⋅ Cap 4 (PlusC not_space)
   ⋅ Lit " " ⋅ Cap 5 (PlusC not_space)
   ⋅ Lit " " ⋅ Cap 6 (PlusC not_hash_nl)
   ⋅ Quest comment_re
   ⋅ EndText)%re.

(** [fields[n]]; the pattern has seven groups, so no index is out of range. *)
Definition field (fields : submatches) (n : nat) : string :=
  default "" (fields !! n).

(** [nil] is [None]. *)
Definition parseAPTConfigLine (line : string) : option Repository :=
  match FindStringSubmatch aptConfigLineRegexp line with
  | None => None
  | Some fields =>
      if (length fields <? 6)%nat then None
      else Some {|
        Enabled := negb (String.eqb (field fields 1) "# ");
        SourceRepo := String.eqb (field fields 2) "deb-src";
        Options := field fields 3;
        URI := field fields 4;
        Distribution := field fields 5;
        Components := field fields 6;
        Comment := field fields 7;
      |}
  end.


(** ** The operating system: files and directories

    Paths are keys of a finite map.  A file has its bytes, a directory the
    names of its entries; both have permission bits.  [fs_free] is the
    space left on the device, in bytes. *)

Inductive errno : Type := ENOENT | EACCES | EISDIR | ENOTDIR | ENOSPC | EBADF.

Definition strerror (e : errno) : string :=
  match e with
  | ENOENT => "no such file or directory"
  | EACCES => "permission denied"
  | EISDIR => "is a directory"
  | ENOTDIR => "not a directory"
  | ENOSPC => "no space left on device"
  | EBADF => "bad file descriptor"
  end.

(** [*os.PathError] *)
Record PathError : Type := mkPathError {
  Op : string;
  Path : string;
  Err : errno;
}.

Definition PathError_Error (e : PathError) : string :=
  Op e +:+ " " +:+ Path e +:+ ": " +:+ strerror (Err e).

(** [os.IsNotExist(err)] *)
Definition IsNotExist (e : PathError) : bool :=
  match Err e with ENOENT => true | _ => false end.

Record perm : Type := mkPerm { readable : bool; writable : bool }.

Inductive node : Type :=
| File (data : string) (mode : perm)
| Dir (names : gset string) (mode : perm).

Record FS : Type := mkFS {
  fs_nodes : gmap string node;
  fs_free : nat;
}.

Module filepath.

Fixpoint clean_go (rooted : bool) (todo stack : list string) : list string :=
  match todo with
  | [] => rev stack
  | c :: todo' =>
      if bool_decide (c = "") || bool_decide (c = ".") then
        clean_go rooted todo' stack
      else if bool_decide (c = "..") then
        match stack with
        | top :: stack' =>
            if bool_decide (top = "..") then clean_go rooted todo' (c :: stack)
            else clean_go rooted todo' stack'
        | [] =>
            if rooted then clean_go rooted todo' []
            else clean_go rooted todo' [c]
        end
      else clean_go rooted todo' (c :: stack)
  end.

(** [filepath.Clean] on Unix: single separators, no "." element, no
    inner ".." with the element before it, no ".." at the root; the
    empty result is ".". *)
Definition Clean (path : string) : string :=
  let rooted := match path with String "/" _ => true | _ => false end in
  let body := Str.join "/" (clean_go rooted (Str.split "/" path) []) in
  if rooted then "/" +:+ body
  else if bool_decide (body = "") then "." else body.

(** [filepath.Join(elem...)]: from the first non-empty element on, joined
    by "/" and cleaned. *)
Fixpoint Join (elem : list string) : string :=
  match elem with
  | [] => ""
  | e :: elem' =>
      if bool_decide (e = "") then Join elem' else Clean (Str.join "/" elem)
  end.

Fixpoint split_go (cur : string) (s : string) : string * string :=
  match s with
  | EmptyString => (EmptyString, cur)
  | String a s' =>
      if Ascii.eqb a "/" then
        let '(d, b) := split_go EmptyString s' in
        (cur +:+ String a d, b)
      else split_go (cur +:+ String a EmptyString) s'
  end.

(** [filepath.Split]: the path up to its last separator, and the rest. *)
Definition Split (path : string) : string * string := split_go "" path.

(** [filepath.Dir] and [filepath.Base] of a cleaned path that names a
    file. *)
Definition Dir (path : string) : string := Clean (fst (Split path)).
Definition Base (path : string) : string := snd (Split path).

End filepath.

Arguments filepath.Join : simpl never.
Arguments filepath.Clean : simpl never.


Module os.

Definition lookup_node (fs : FS) (name : string) : option node :=
  fs_nodes fs !! name.

(** [ioutil.ReadFile] *)
Definition ReadFile (fs : FS) (name : string) : result PathError string :=
  match lookup_node fs name with
  | None => Error (mkPathError "open" name ENOENT)
  | Some (Dir _ _) => Error (mkPathError "read" name EISDIR)
  | Some (File data mode) =>
      if readable mode then Ok data
      else Error (mkPathError "open" name EACCES)
  end.

(** [ioutil.ReadDir]: the names of the entries, sorted. *)
Definition ReadDir (fs : FS) (name : string) : result PathError (list string) :=
  match lookup_node fs name with
  | None => Error (mkPathError "open" name ENOENT)
  | Some (File _ _) => Error (mkPathError "readdirent" name ENOTDIR)
  | Some (Dir names mode) =>
      if readable mode then Ok (merge_sort String.le (elements names))
      else Error (mkPathError "open" name EACCES)
  end.

Inductive flag : Type := O_WRONLY | O_APPEND | O_CREATE.

Definition has (f : flag) (flags : list flag) : bool :=
  existsb (fun g => match f, g with
                    | O_WRONLY, O_WRONLY | O_APPEND, O_APPEND
                    | O_CREATE, O_CREATE => true
                    | _, _ => false
                    end) flags.

(** An [*os.File] open for writing. *)
Record handle : Type := mkHandle { h_name : string; h_append : bool }.

(** [os.OpenFile(name, flag, perm)] with [O_WRONLY] in [flag]. *)
Definition OpenFile (fs : FS) (name : string) (flags : list flag) (mode : perm)
    : result PathError handle * FS :=
  match lookup_node fs name with
  | Some (Dir _ _) => (Error (mkPathError "open" name EISDIR), fs)
  | Some (File _ m) =>
      if writable m then (Ok (mkHandle name (has O_APPEND flags)), fs)
      else (Error (mkPathError "open" name EACCES), fs)
  | None =>
      if has O_CREATE flags then
        match lookup_node fs (filepath.Dir name) with
        | None => (Error (mkPathError "open" name ENOENT), fs)
        | Some (File _ _) => (Error (mkPathError "open" name ENOTDIR), fs)
        | Some (Dir names m) =>
            if writable m then
              (Ok (mkHandle name (has O_APPEND flags)),
               mkFS (<[name := File "" mode]>
                       (<[filepath.Dir name :=
                            Dir ({[filepath.Base name]} ∪ names) m]>
                          (fs_nodes fs)))
                    (fs_free fs))
            else (Error (mkPathError "open" name EACCES), fs)
        end
      else (Error (mkPathError "open" name ENOENT), fs)
  end.

(** [s[n:]] *)
Fixpoint drop (n : nat) (s : string) : string :=
  match n, s with
  | S n', String _ s' => drop n' s'
  | _, _ => s
  end.

(** [f.WriteString(s)] on a handle just opened: at the end of the file
    with [O_APPEND], at offset 0 without.  When the device is full the
    bytes that fit are written and the call fails. *)
Definition WriteString (fs : FS) (f : handle) (s : string)
    : result PathError nat * FS :=
  match lookup_node fs (h_name f) with
  | Some (File data m) =>
      let avail :=
        if h_append f then fs_free fs else String.length data + fs_free fs in
      let w := Str.take (Nat.min (String.length s) avail) s in
      let data' :=
        if h_append f then data +:+ w else w +:+ drop (String.length w) data in
      let fs' :=
        mkFS (<[h_name f := File data' m]> (fs_nodes fs))
             (fs_free fs - (String.length data' - String.length data)) in
      if (String.length s <=? avail)%nat then (Ok (String.length s), fs')
      else (Error (mkPathError "write" (h_name f) ENOSPC), fs')
  | _ => (Error (mkPathError "write" (h_name f) EBADF), fs)
  end.

End os.

(** ** bufio.Scanner with the default split function [ScanLines] *)

Module bufio.

Definition MaxScanTokenSize : nat := 64 * 1024.

(** [dropCR] *)
Fixpoint dropCR (s : string) : string :=
  match s with
  | String "013" EmptyString => EmptyString
  | String a s' => String a (dropCR s')
  | EmptyString => EmptyString
  end.

(** The text after the last newline is a line unless it is empty. *)
Fixpoint drop_last_empty (l : list string) : list string :=
  match l with
  | [] => []
  | [EmptyString] => []
  | x :: l' => x :: drop_last_empty l'
  end.

Fixpoint take_while {A} (p : A -> bool) (l : list A) : list A :=
  match l with
  | [] => []
  | x :: l' => if p x then x :: take_while p l' else []
  end.

(** The successive values of [scanner.Text()] while [scanner.Scan()] is
    true.  A line of [MaxScanTokenSize] bytes or more does not fit the
    buffer: [Scan] returns false there ([ErrTooLong]) and the loop ends. *)
Definition ScanLines (data : string) : list string :=
  map dropCR
    (take_while (fun l => (String.length l <? MaxScanTokenSize)%nat)
       (drop_last_empty (Str.split "010" data))).

End bufio.

(** Go [error] values of this package are built by [fmt.Errorf]; an error
    is its message. *)
Definition error := string.

Fixpoint parseLines (lines : list string) (res : RepositoryList) : RepositoryList :=
  match lines with
  | [] => res
  | line :: lines' =>
      match parseAPTConfigLine line with
      | Some repo => parseLines lines' (res ++ [repo])
      | None => parseLines lines' res
      end
  end.

Definition parseAPTConfigFile (fs : FS) (configPath : string)
    : result error RepositoryList :=
  match os.ReadFile fs configPath with
  | Error err =>
      Error ("Reading " +:+ configPath +:+ ": " +:+ PathError_Error err)
  | Ok data => Ok (parseLines (bufio.ScanLines data) [])
  end.

Fixpoint listSources (sourcesFolder : string) (entries : list string)
    (sources : list string) : list string :=
  match entries with
  | [] => sources
  | l :: entries' =>
      if Str.has_suffix l ".list"
      then listSources sourcesFolder entries'
             (sources ++ [filepath.Join [sourcesFolder; l]])
      else listSources sourcesFolder entries' sources
  end.

Fixpoint parseSources (fs : FS) (sources : list string) (res : RepositoryList)
    : result error RepositoryList :=
  match sources with
  | [] => Ok res
  | source :: sources' =>
      match parseAPTConfigFile fs source with
      | Error err => Error ("Parsing " +:+ source +:+ ": " +:+ err)
      | Ok repos => parseSources fs sources' (res ++ repos)
      end
  end.

Definition ParseAPTConfigFolder (fs : FS) (folderPath : string)
    : result error RepositoryList :=
  let sources := [filepath.Join [folderPath; "sources.list"]] in
  let sourcesFolder := filepath.Join [folderPath; "sources.list.d"] in
  match os.ReadDir fs sourcesFolder with
  | Error err =>
      Error ("Reading " +:+ sourcesFolder +:+ " folder: " +:+ PathError_Error err)
  | Ok entries =>
      let sources := listSources sourcesFolder entries sources in
      parseSources fs sources []
  end.

Definition perm0644 : perm := mkPerm true true.

(** The returned error ([None] is [nil]) and the file system afterwards. *)
Definition AddRepository (repo : Repository) (configFolderPath : string) (fs : FS)
    : option error * FS :=
  match ParseAPTConfigFolder fs configFolderPath with
  | Error err => (Some ("parsing APT config: " +:+ err), fs)
  | Ok repos =>
      if Contains repos repo then
        (Some "The repository is already configured", fs)
      else
        let managedPath :=
          filepath.Join [configFolderPath; "sources.list.d"; "managed.list"] in
        let '(f, fs) :=
          os.OpenFile fs managedPath [os.O_APPEND; os.O_WRONLY] perm0644 in
        let '(f, fs) :=
          match f with
          | Error err =>
              if IsNotExist err
              then os.OpenFile fs managedPath [os.O_CREATE; os.O_WRONLY] perm0644
              else (f, fs)
          | Ok _ => (f, fs)
          end in
        match f with
        | Error err =>
            (Some ("Opening " +:+ managedPath +:+ ": " +:+ PathError_Error err), fs)
        | Ok f =>
            match os.WriteString fs f (APTConfigLine repo +:+ String "010" "") with
            | (Error err, fs) =>
                (Some ("Writing repo data to config file " +:+ managedPath
                       +:+ ": " +:+ PathError_Error err), fs)
            | (Ok _, fs) => (None, fs)
            end
        end
  end.

(** ** Packages: apt.go *)

Record Package : Type := mkPackage {
  Name : string;
  Status : string;
  Architecture : string;
  Version : string;
  ShortDescription : string;
  InstalledSizeKB : Z;
}.

Module strconv.

Definition digit (a : ascii) : option Z :=
  let n := nat_of_ascii a in
  if (48 <=? n)%nat && (n <=? 57)%nat then Some (Z.of_nat (n - 48)) else None.

Fixpoint digits (acc : Z) (s : string) : option Z :=
  match s with
  | EmptyString => Some acc
  | String a s' =>
      match digit a with
      | Some d => digits (10 * acc + d)%Z s'
      | None => None
      end
  end.

(** [strconv.Atoi] where [int] has 64 bits: an optional sign and decimal
    digits, at least one; [None] for a syntax or a range error. *)
Definition Atoi (s : string) : option Z :=
  let '(neg, s0) :=
    match s with
    | String "+" s' => (false, s')
    | String "-" s' => (true, s')
    | _ => (false, s)
    end in
  match s0 with
  | EmptyString => None
  | _ =>
      match digits 0 s0 with
      | None => None
      | Some n =>
          let v := (if neg then - n else n)%Z in
          if ((- 2 ^ 63 <=? v) && (v <=? 2 ^ 63 - 1))%Z then Some v else None
      end
  end.

End strconv.

(** A function returns or panics. *)
Inductive outcome (A : Type) : Type :=
| Returns (a : A)
| Panics (index len : nat).     (* index out of range [index] with length len *)
Arguments Returns {A} a.
Arguments Panics {A} index len.

Definition obind {A B} (x : outcome A) (f : A -> outcome B) : outcome B :=
  match x with
  | Returns a => f a
  | Panics i n => Panics i n
  end.

Notation "x ← y ;;; z" := (obind y (fun x => z))
  (at level 20, y at level 100, z at level 200, only parsing).

(** [data[i]] *)
Definition index (data : list string) (i : nat) : outcome string :=
  match data !! i with
  | Some x => Returns x
  | None => Panics i (length data)
  end.

Fixpoint parseDpkgQueryLines (lines : list string) (res : list Package)
    : outcome (list Package) :=
  match lines with
  | [] => Returns res
  | line :: lines' =>
      let data := Str.split "009" line in
      d4 ← index data 4 ;;;
      let size := match strconv.Atoi d4 with
                  | Some n => n
                  | None => 0%Z        (* Ignore error *)
                  end in
      d0 ← index data 0 ;;;
      d1 ← index data 1 ;;;
      d2 ← index data 2 ;;;
      d3 ← index data 3 ;;;
      d5 ← index data 5 ;;;
      parseDpkgQueryLines lines'
        (res ++ [{| Name := d0; Architecture := d1; Status := d2;
                    Version := d3; InstalledSizeKB := size;
                    ShortDescription := d5 |}])
  end.

Definition parseDpkgQueryOutput (out : string) : outcome (list Package) :=
  parseDpkgQueryLines (bufio.ScanLines out) [].

(** *** External tools

    [exec.Command(name, args...)] is a value; running it asks the system,
    which answers with what the tool printed and how it ended.  The
    commands run so far are part of the state. *)

Record Cmd : Type := Command { cmd_name : string; cmd_args : list string }.

Record Completed : Type := mkCompleted {
  stdout : string;
  combined : string;             (* standard output and standard error *)
  exit_error : option error;     (* [nil] when the tool exits with 0 *)
}.

Record World : Type := mkWorld {
  tool : Cmd -> Completed;
  issued : list Cmd;
}.

Definition run (cmd : Cmd) (w : World) : Completed * World :=
  (tool w cmd, mkWorld (tool w) (issued w ++ [cmd])).

(** [cmd.CombinedOutput()] *)
Definition CombinedOutput (cmd : Cmd) (w : World) : (string * option error) * World :=
  let '(c, w) := run cmd w in ((combined c, exit_error c), w).

(** [cmd.Output()] *)
Definition Output (cmd : Cmd) (w : World) : (string * option error) * World :=
  let '(c, w) := run cmd w in ((stdout c, exit_error c), w).

(** The loop [for _, pack := range packs] of [Upgrade], [Remove] and
    [Install]; [who] is "apt.Upgrade", "apt.Remove" or "apt.Install".  A
    [nil] package is [None]. *)
Fixpoint appendNames (who : string) (packs : list (option Package))
    (args : list string) : result error (list string) :=
  match packs with
  | [] => Ok args
  | pack :: packs' =>
      match pack with
      | None => Error (who +:+ ": Invalid package with empty Name")
      | Some p =>
          if String.eqb (Name p) "" then
            Error (who +:+ ": Invalid package with empty Name")
          else appendNames who packs' (args ++ [Name p])
      end
  end.

Definition Upgrade (packs : list (option Package)) (w : World)
    : (string * option error) * World :=
  match appendNames "apt.Upgrade" packs ["upgrade"; "-y"] with
  | Error err => (("", Some err), w)
  | Ok args => CombinedOutput (Command "apt-get" args) w
  end.

Definition UpgradeAll (w : World) : (string * option error) * World :=
  CombinedOutput (Command "apt-get" ["upgrade"; "-y"]) w.

Definition Remove (packs : list (option Package)) (w : World)
    : (string * option error) * World :=
  match appendNames "apt.Remove" packs ["remove"; "-y"] with
  | Error err => (("", Some err), w)
  | Ok args => CombinedOutput (Command "apt-get" args) w
  end.

Definition Install (packs : list (option Package)) (w : World)
    : (string * option error) * World :=
  match appendNames "apt.Install" packs ["install"; "-y"] with
  | Error err => (("", Some err), w)
  | Ok args => CombinedOutput (Command "apt-get" args) w
  end.

(** [split[len(split)-1]] *)
Definition last_token (split : list string) : string :=
  default "" (last split).

Fixpoint depLoop (name : string) (splitOutput : list string)
    (depSeen : gset string) (depList : list string) : list string :=
  match splitOutput with
  | [] => depList
  | dep :: rest =>
      let split := Str.split " " dep in
      if (0 <? length split)%nat then
        let depName := last_token split in
        if String.eqb depName "" || String.eqb depName name then
          depLoop name rest depSeen depList
        else if bool_decide (depName ∈ depSeen) then
          depLoop name rest depSeen depList
        else depLoop name rest ({[depName]} ∪ depSeen) (depList ++ [depName])
      else depLoop name rest depSeen depList
  end.

(** The dependency list computed from the output of the tool. *)
Definition dependenciesOf (name : string) (out : string) : list string :=
  let splitOutput := Str.split "010" out in
  let splitOutput := rev splitOutput in
  depLoop name splitOutput ∅ [].

Definition GetDependencies (pack : option Package) (w : World)
    : result error (list string) * World :=
  let args := ["depends"; "-i"; "--recurse"] in
  match pack with
  | None => (Error "apt.GetDependencies: Invalid package with empty Name", w)
  | Some p =>
      if String.eqb (Name p) "" then
        (Error "apt.GetDependencies: Invalid package with empty Name", w)
      else
        let args := args ++ [Name p] in
        let '((out, err), w) := Output (Command "apt-cache" args) w in
        match err with
        | Some err => (Error err, w)
        | None => (Ok (dependenciesOf (Name p) out), w)
        end
  end.

(** *** The other operations of apt.go *)

Module bytes.

(** [bytes.Contains(b, subslice)] *)
Fixpoint Contains (b subslice : string) : bool :=
  match Str.strip_prefix subslice b with
  | Some _ => true
  | None =>
      match b with
      | String _ b' => Contains b' subslice
      | EmptyString => false
      end
  end.

End bytes.

Module path.

(** [path.Join] is [filepath.Join] where the separator is "/". *)
Definition Join (elem : list string) : string := filepath.Join elem.

End path.




Definition CheckForUpdates (w : World) : (string * option error) * World :=
  CombinedOutput (Command "apt-get" ["update"; "-q"]) w.





Definition DistUpgrade (w : World) : (string * option error) * World :=
  CombinedOutput (Command "apt-get" ["dist-upgrade"; "-y"]) w.

Definition InstallDry (packs : list (option Package)) (w : World)
    : (string * option error) * World :=
  match appendNames "apt.Install" packs ["install"; "-y"; "--dry-run"] with
  | Error err => (("", Some err), w)
  | Ok args => CombinedOutput (Command "apt-get" args) w
  end.

Definition perm0755 : perm := mkPerm true true.

Section Download.

(** [os.MkdirAll(path, perm)]: the error, [None] for [nil], and the file
    system afterwards.  [Download] is defined for whatever the call does. *)
Variable MkdirAll : string -> perm -> FS -> option error * FS.

Definition Download (pack : option Package) (targetPath : string) (fs : FS)
    (w : World) : (string * option error) * FS * World :=
  let args :=
    ["install"; "-y"; "--reinstall"; "--download-only";
     "-o"; "Debug::NoLocking=1";
     "-o"; "Dir::Cache::archives=" +:+ String "034" targetPath
           +:+ String "034" ""] in
  match pack with
  | None => (("", Some "apt.Download: Invalid package with empty Name"), fs, w)
  | Some p =>
      if String.eqb (Name p) "" then
        (("", Some "apt.Download: Invalid package with empty Name"), fs, w)
      else
        let '(err, fs) := MkdirAll (path.Join [targetPath; "partial"]) perm0755 fs in
        match err with
        | Some err => (("", Some err), fs, w)
        | None =>
            let args := args ++ [Name p] in
            let '(res, w) := CombinedOutput (Command "apt-get" args) w in
            (res, fs, w)
        end
  end.

End Download.

(** ** Definitions used to state the properties *)

(** *** Lines and repositories *)

(** The text without its leading spaces. *)
Fixpoint trim_spaces_left (s : string) : string :=
  match s with
  | String " " s' => trim_spaces_left s'
  | _ => s
  end.

Definition starts_with (a : ascii) (s : string) : bool :=
  match s with
  | String b _ => Ascii.eqb a b
  | EmptyString => false
  end.

Definition nonempty (s : string) : bool :=
  match s with
  | EmptyString => false
  | String _ _ => true
  end.

(** A repository without options whose fields are in the classes of the
    pattern: URI and Distribution without a space, Components without "#"
    and newline, Comment without newline; the URI does not begin like
    options. *)
Definition plain (r : Repository) : bool :=
  String.eqb (Options r) ""
  && nonempty (URI r) && Str.all not_space (URI r)
  && negb (starts_with "[" (URI r))
  && nonempty (Distribution r) && Str.all not_space (Distribution r)
  && nonempty (Components r) && Str.all not_hash_nl (Components r)
  && Str.all any_but_nl (Comment r).

(** The first byte of [s] is in the class [p]. *)
Definition head_in (p : ascii -> bool) (s : string) : bool :=
  match s with
  | String a _ => p a
  | EmptyString => false
  end.

(** The number of leading spaces. *)
Fixpoint leading_spaces (s : string) : nat :=
  match s with
  | String " " s' => S (leading_spaces s')
  | _ => 0
  end.

(** The pattern after group 2. *)
Definition fields_re : regex :=
  (Quest options_re
   ⋅ Lit " " ⋅ Cap 4 (PlusC not_space)
   ⋅ Lit " " ⋅ Cap 5 (PlusC not_space)
   ⋅ Lit " " ⋅ Cap 6 (PlusC not_hash_nl)
   ⋅ Quest comment_re
   ⋅ EndText)%re.

(** What a match of [r] says about the text, without search: [r] takes a
    prefix of [s] at offset [i] and leaves [s'] at offset [i'], and the
    submatches [m] become [m']. *)
Fixpoint matches (r : regex) (i : nat) (s : string) (m : submatches)
    (i' : nat) (s' : string) (m' : submatches) : Prop :=
  match r with
  | Lit l => s = l +:+ s' /\ i' = i + String.length l /\ m' = m
  | Cat r1 r2 =>
      exists j t n, matches r1 i s m j t n /\ matches r2 j t n i' s' m'
  | Alt r1 r2 => matches r1 i s m i' s' m' \/ matches r2 i s m i' s' m'
  | Quest r1 => matches r1 i s m i' s' m' \/ (i' = i /\ s' = s /\ m' = m)
  | StarC p =>
      exists w, s = w +:+ s' /\ Str.all p w = true
                /\ i' = i + String.length w /\ m' = m
  | PlusC p =>
      exists w, s = w +:+ s' /\ nonempty w = true /\ Str.all p w = true
                /\ i' = i + String.length w /\ m' = m
  | Cap n r1 =>
      exists m1, matches r1 i s m i' s' m1
                 /\ m' = <[n := Str.take (i' - i) s]> m1
  | BeginText => i = 0 /\ i' = i /\ s' = s /\ m' = m
  | EndText => s = "" /\ i' = i /\ s' = s /\ m' = m
  end.

(** The grammar of a config line, in terms of the repository it stands
    for: an optional "# ", "deb" or "deb-src", optional options in brackets
    after a space, then URI, Distribution and Components each after one
    space, and an optional comment after spaces, "#" and spaces. *)
Definition shape (line : string) (r : Repository) : Prop :=
  exists bracket tail,
    line = (if Enabled r then "" else "# ")
           +:+ (if SourceRepo r then "deb-src" else "deb")
           +:+ bracket +:+ " " +:+ URI r +:+ " " +:+ Distribution r
           +:+ " " +:+ Components r +:+ tail
    /\ (bracket = "" /\ Options r = ""
        \/ bracket = " [" +:+ Options r +:+ "]")
    /\ (tail = "" /\ Comment r = ""
        \/ exists sp sp',
             nonempty sp = true /\ Str.all space sp = true
             /\ Str.all space sp' = true
             /\ tail = sp +:+ "#" +:+ sp' +:+ Comment r)
    /\ Str.all any_but_nl (Options r) = true
    /\ nonempty (URI r) = true /\ Str.all not_space (URI r) = true
    /\ nonempty (Distribution r) = true
    /\ Str.all not_space (Distribution r) = true
    /\ nonempty (Components r) = true
    /\ Str.all not_hash_nl (Components r) = true
    /\ Str.all any_but_nl (Comment r) = true.

(** Equality of repositories by the rule of the specification: the same
    URI, Distribution, Components, kind (binary or source) and Options;
    Enabled and Comment do not count. *)
Definition same_source (r s : Repository) : Prop :=
  URI r = URI s /\ Distribution r = Distribution s /\
  Components r = Components s /\ SourceRepo r = SourceRepo s /\
  Options r = Options s.

(** The list holds a repository equal to [repo]. *)
Definition configured (repos : RepositoryList) (repo : Repository) : Prop :=
  Exists (same_source repo) repos.

(** Repositories at which the round trip is examined. *)
Definition amd64_repo : Repository :=
  mkRepository true false "arch=amd64" "http://example.com/" "stable" "main" "".

Definition ipv6_repo : Repository :=
  mkRepository true false "arch=amd64" "http://[::1]" "stable" "main contrib" "".

(** *** Config folders *)

(** The bytes of a file that can be read. *)
Definition contents (fs : FS) (name : string) : string :=
  match os.ReadFile fs name with
  | Ok data => data
  | Error _ => ""
  end.

(** The lines of a text, in the words of the specification: a line ends
    at a newline or, when it is not empty, at the end of the text. *)
Fixpoint linesOf (data : string) : list string :=
  match data with
  | EmptyString => []
  | String a rest =>
      if Ascii.eqb a "010" then EmptyString :: linesOf rest
      else match linesOf rest with
           | [] => [String a EmptyString]
           | l :: ls => String a l :: ls
           end
  end.

(** The line without the carriage return that ends it, if any. *)
Definition without_cr (l : string) : string :=
  match String.get (String.length l - 1) l with
  | Some "013"%char => String.substring 0 (String.length l - 1) l
  | _ => l
  end.

(** No line of the text has as many bytes as the buffer of the scanner. *)
Definition short_lines (data : string) : Prop :=
  Forall (fun l => String.length l < bufio.MaxScanTokenSize) (linesOf data).

(** The records of the lines that the scanner yields, in order. *)
Definition recordsOf (data : string) : RepositoryList :=
  omap parseAPTConfigLine (bufio.ScanLines data).

(** The files of a config folder: the primary file, then the entries of
    sources.list.d with the extension .list, in the order of the listing. *)
Definition sourcesOf (folderPath : string) (entries : list string) : list string :=
  filepath.Join [folderPath; "sources.list"]
  :: map (fun l => filepath.Join [filepath.Join [folderPath; "sources.list.d"]; l])
       (filter (fun l => Str.has_suffix l ".list" = true) entries).

Definition managedPath (configFolderPath : string) : string :=
  filepath.Join [configFolderPath; "sources.list.d"; "managed.list"].

(** The file [name] can be opened for writing, or created. *)
Definition can_open (fs : FS) (name : string) : bool :=
  match os.lookup_node fs name with
  | Some (File _ m) => writable m
  | Some (Dir _ _) => false
  | None =>
      match os.lookup_node fs (filepath.Dir name) with
      | Some (Dir _ m) => writable m
      | _ => false
      end
  end.

(** The bytes of the file [name], none when there is no such file. *)
Definition prior (fs : FS) (name : string) : string :=
  match os.lookup_node fs name with
  | Some (File data _) => data
  | _ => ""
  end.

Definition rw : perm := mkPerm true true.
Definition ro : perm := mkPerm true false.

Definition focal_line : string :=
  "deb http://archive.ubuntu.com/ubuntu focal main restricted".

(** /etc/apt with sources.list and three entries in sources.list.d. *)
Definition etc_apt : FS :=
  mkFS (list_to_map
    [("/etc/apt", Dir {["sources.list"; "sources.list.d"]} rw);
     ("/etc/apt/sources.list",
       File (focal_line +:+ String "010" "# a comment" +:+ String "010" "") rw);
     ("/etc/apt/sources.list.d", Dir {["b.list"; "a.list"; "c.txt"]} rw);
     ("/etc/apt/sources.list.d/a.list", File "deb-src http://a/ stable main" rw);
     ("/etc/apt/sources.list.d/b.list", File "deb http://b/ stable main" rw);
     ("/etc/apt/sources.list.d/c.txt", File "deb http://c/ stable main" rw)])
    4096.

(** /etc/apt where sources.list.d cannot be listed: it is a file. *)
Definition etc_apt_no_dir : FS :=
  mkFS (list_to_map
    [("/etc/apt", Dir {["sources.list"; "sources.list.d"]} rw);
     ("/etc/apt/sources.list", File focal_line rw);
     ("/etc/apt/sources.list.d", File "" rw)])
    4096.

(** /etc/apt without sources.list. *)
Definition etc_apt_no_primary : FS :=
  mkFS (list_to_map
    [("/etc/apt", Dir {["sources.list.d"]} rw);
     ("/etc/apt/sources.list.d", Dir {["a.list"]} rw);
     ("/etc/apt/sources.list.d/a.list", File "deb-src http://a/ stable main" rw)])
    4096.

(** /etc/apt where managed.list exists and is read-only. *)
Definition etc_apt_read_only : FS :=
  mkFS (list_to_map
    [("/etc/apt", Dir {["sources.list"; "sources.list.d"]} ro);
     ("/etc/apt/sources.list", File focal_line ro);
     ("/etc/apt/sources.list.d", Dir {["managed.list"]} ro);
     ("/etc/apt/sources.list.d/managed.list", File "deb http://b/ stable main" ro)])
    4096.

Definition focal : Repository :=
  mkRepository true false "" "http://archive.ubuntu.com/ubuntu" "focal"
    "main restricted" "".

(** The same repository, disabled and with a comment. *)
Definition focal_disabled : Repository :=
  mkRepository false false "" "http://archive.ubuntu.com/ubuntu" "focal"
    "main restricted" "added by hand".

(** [n] times the byte [a]. *)
Fixpoint bytes_of (n : nat) (a : ascii) : string :=
  match n with
  | 0 => ""
  | S n' => String a (bytes_of n' a)
  end.

(** A comment of as many bytes as the buffer of the scanner. *)
Definition long_comment : string := bytes_of bufio.MaxScanTokenSize "#".

(** /etc/apt where sources.list holds that comment and, on the next line,
    a repository. *)
Definition etc_apt_long_line : FS :=
  mkFS (list_to_map
    [("/etc/apt", Dir {["sources.list"; "sources.list.d"]} rw);
     ("/etc/apt/sources.list",
       File (long_comment +:+ String "010" "deb http://a/ stable main") rw);
     ("/etc/apt/sources.list.d", Dir ∅ rw)])
    4096.

Definition example_repo : Repository :=
  mkRepository true false "" "http://example.com/" "stable" "main" "".

(** *** Packages and tools *)

(** The record [parseDpkgQueryOutput] builds from a line that has its six
    fields. *)
Definition packageOfLine (line : string) : Package :=
  let data := Str.split "009" line in
  {| Name := default "" (data !! 0);
     Architecture := default "" (data !! 1);
     Status := default "" (data !! 2);
     Version := default "" (data !! 3);
     InstalledSizeKB := default 0%Z (strconv.Atoi (default "" (data !! 4)));
     ShortDescription := default "" (data !! 5) |}.

(** A target that the operations refuse: [nil] or with an empty name. *)
Definition invalid (pack : option Package) : bool :=
  match pack with
  | None => true
  | Some p => String.eqb (Name p) ""
  end.

(** The names of the targets, in order. *)
Definition names (packs : list (option Package)) : list string :=
  omap (fun pack => Name <$> pack) packs.

(** What an operation with the sub-command [sub] does with its targets. *)
Definition batch (who sub : string) (packs : list (option Package)) (w : World)
    : (string * option error) * World :=
  if existsb invalid packs
  then (("", Some (who +:+ ": Invalid package with empty Name")), w)
  else CombinedOutput (Command "apt-get" ([sub; "-y"] ++ names packs)) w.

(** The first occurrence of every element, in order. *)
Fixpoint keep_first (l : list string) : list string :=
  match l with
  | [] => []
  | x :: l' => x :: filter (fun y => y <> x) (keep_first l')
  end.

(** The dependency list in the words of the specification: the lines in
    reverse order, the last space-separated token of each, without the
    empty names and the queried name, first occurrences only. *)
Definition dependencies_spec (name : string) (lines : list string) : list string :=
  keep_first
    (filter (fun n => n <> "" /\ n <> name)
       (map (fun line => last_token (Str.split " " line)) (rev lines))).

(** A world where apt-cache prints the lines "", "libc6", "libfoo", "mypkg". *)
Definition mypkg_world : World :=
  mkWorld
    (fun _ => mkCompleted
                (String "010" "libc6" +:+ String "010" "libfoo" +:+ String "010" "mypkg")
                "" None)
    [].

(** *** Lines, fields and entries *)

(** A byte other than [sep]. *)
Definition other_than (sep : ascii) (a : ascii) : bool := negb (Ascii.eqb a sep).


(** A line of the status output has its six fields. *)
Definition six_fields (line : string) : Prop :=
  6 <= length (Str.split "009" line).


(** The text made of the lines [ls], a newline after each. *)
Fixpoint unlines (ls : list string) : string :=
  match ls with
  | [] => ""
  | l :: ls' => l +:+ String "010" (unlines ls')
  end.

(** A line that the scanner returns as it is: without newline and carriage
    return, and shorter than the buffer. *)
Definition scanned (l : string) : bool :=
  Str.all (fun a => negb (Ascii.eqb a "010") && negb (Ascii.eqb a "013")) l
  && (String.length l <? bufio.MaxScanTokenSize)%nat.

(** A field of a status entry: without tab, newline and carriage return. *)
Definition status_field (s : string) : bool :=
  Str.all (fun a => negb (Ascii.eqb a "009") && negb (Ascii.eqb a "010")
                    && negb (Ascii.eqb a "013")) s.

(** What dpkg-query prints for a package under the format of [Search],
    up to the newline: the six fields in the order of the format, [size]
    for Installed-Size. *)
Definition statusEntry (p : Package) (size : string) : string :=
  Name p +:+ String "009" (Architecture p +:+ String "009" (Status p
  +:+ String "009" (Version p +:+ String "009" (size
  +:+ String "009" (ShortDescription p))))).

(** A package and the text of its size as dpkg-query prints them. *)
Definition printable (row : Package * string) : Prop :=
  let '(p, size) := row in
  status_field (Name p) = true /\ status_field (Architecture p) = true
  /\ status_field (Status p) = true /\ status_field (Version p) = true
  /\ status_field size = true /\ status_field (ShortDescription p) = true
  /\ String.length (statusEntry p size) < bufio.MaxScanTokenSize
  /\ InstalledSizeKB p = default 0%Z (strconv.Atoi size).

(** A disabled source repository with a comment. *)
Definition disabled_source : Repository :=
  mkRepository false true "" "http://example.com/" "stable" "main"
    "disabled source".

(** A file system whose sources.list holds a repository, then a line of as
    many bytes as the buffer of the scanner, then another repository. *)
Definition long_second_line : FS :=
  mkFS (list_to_map
    [("/etc/apt/sources.list",
       File (unlines [focal_line]
             +:+ bytes_of bufio.MaxScanTokenSize "x"
             +:+ String "010" (unlines ["deb http://b/ stable main"])) rw)])
    4096.

(** /etc/apt where an entry of sources.list.d with the extension .list is
    a directory. *)
Definition etc_apt_dir_entry : FS :=
  mkFS (list_to_map
    [("/etc/apt", Dir {["sources.list"; "sources.list.d"]} rw);
     ("/etc/apt/sources.list", File focal_line rw);
     ("/etc/apt/sources.list.d", Dir {["old.list"; "z.list"]} rw);
     ("/etc/apt/sources.list.d/old.list", Dir ∅ rw);
     ("/etc/apt/sources.list.d/z.list", File "deb http://z/ stable main" rw)])
    4096.

Definition bash_installed : Package :=
  mkPackage "bash" "installed" "amd64" "5.1-6" "GNU Bourne Again SHell" 7164.

Definition zsh_not_installed : Package :=
  mkPackage "zsh" "not-installed" "amd64" "" "" 0.

(** * Properties *)

(** ** Byte strings *)

Lemma append_cons (a : ascii) (s t : string) :
  String a s +:+ t = String a (s +:+ t).
Proof. reflexivity. Qed.

Lemma append_nil_l (s : string) : "" +:+ s = s.
Proof. reflexivity. Qed.

Lemma append_nil_r (s : string) : s +:+ "" = s.
Proof.
  induction s as [|a s IH]; [reflexivity|]. by rewrite append_cons, IH.
Qed.

Lemma append_assoc (s t u : string) : (s +:+ t) +:+ u = s +:+ (t +:+ u).
Proof.
  induction s as [|a s IH]; [reflexivity|]. by rewrite !append_cons, IH.
Qed.

Lemma length_append (s t : string) :
  String.length (s +:+ t) = String.length s + String.length t.
Proof.
  induction s as [|a s IH]; [reflexivity|]. rewrite append_cons. simpl.
  by rewrite IH.
Qed.

Lemma take_length (s : string) : Str.take (String.length s) s = s.
Proof. induction s as [|a s IH]; [reflexivity|]. simpl. by rewrite IH. Qed.

(** ** Equality of repositories *)

Lemma Equals_spec (r s : Repository) :
  Equals r s = true <->
  URI r = URI s /\ Distribution r = Distribution s /\
  Components r = Components s /\ SourceRepo r = SourceRepo s /\
  Options r = Options s.
Proof.
  unfold Equals.
  destruct (String.eqb_spec (Components r) (Components s));
    destruct (String.eqb_spec (Distribution r) (Distribution s));
    destruct (String.eqb_spec (URI r) (URI s));
    destruct (Bool.eqb_spec (SourceRepo r) (SourceRepo s));
    destruct (String.eqb_spec (Options r) (Options s));
    simpl; intuition congruence.
Qed.

(** C4: [Equals r s] holds exactly when URI, Distribution, Components,
    SourceRepo and Options of [r] and [s] are the same; replacing Enabled
    and Comment on either side does not change the answer. *)
Theorem Equals_five_fields (r s : Repository) :
  (Equals r s = true <->
     URI r = URI s /\ Distribution r = Distribution s /\
     Components r = Components s /\ SourceRepo r = SourceRepo s /\
     Options r = Options s)
  /\ (forall e c e' c',
        Equals
          (mkRepository e (SourceRepo r) (Options r) (URI r)
             (Distribution r) (Components r) c)
          (mkRepository e' (SourceRepo s) (Options s) (URI s)
             (Distribution s) (Components s) c')
        = Equals r s).
Proof.
  split; [apply Equals_spec | reflexivity].
Qed.

(** [Contains] answers whether the list holds a repository equal to the
    given one by the rule of the specification. *)
Lemma Contains_configured (repos : RepositoryList) (repo : Repository) :
  Contains repos repo = true <-> configured repos repo.
Proof.
  unfold configured. induction repos as [|i repos IH]; simpl.
  - split; [discriminate|]. intros H. inversion H.
  - rewrite Exists_cons, <- IH.
    change (same_source repo i) with
      (URI repo = URI i /\ Distribution repo = Distribution i /\
       Components repo = Components i /\ SourceRepo repo = SourceRepo i /\
       Options repo = Options i).
    rewrite <- Equals_spec. destruct (Equals repo i).
    + split; auto.
    + split; [auto|]. intros [H|H]; [discriminate|assumption].
Qed.

Lemma not_configured (repos : RepositoryList) (repo : Repository) :
  Contains repos repo = false <-> ~ configured repos repo.
Proof.
  rewrite <- Contains_configured. destruct (Contains repos repo).
  - split; [discriminate|]. intros H. by destruct H.
  - split; [discriminate|reflexivity].
Qed.

Lemma Contains_spec (l : RepositoryList) (r : Repository) :
  Contains l r = true <-> exists x, x ∈ l /\ Equals r x = true.
Proof.
  induction l as [|i l IH]; simpl.
  - split; [discriminate|]. intros (x & Hx & _). by apply elem_of_nil in Hx.
  - destruct (Equals r i) eqn:E.
    + split; [|reflexivity]. intros _. exists i. split; [left|assumption].
    + rewrite IH. split; intros (x & Hx & Hr); exists x.
      * split; [by right|assumption].
      * apply elem_of_cons in Hx as [->|Hx]; [congruence|auto].
Qed.

(** X4: [Equals] is an equivalence relation, and [Contains] gives the
    same answer for equal repositories. *)
Theorem Equals_equivalence :
  (forall r, Equals r r = true)
  /\ (forall r s, Equals r s = Equals s r)
  /\ (forall r s t, Equals r s = true -> Equals s t = true -> Equals r t = true)
  /\ (forall l r s, Equals r s = true -> Contains l r = Contains l s).
Proof.
  assert (Hrefl : forall r, Equals r r = true).
  { intros r. apply Equals_spec. auto. }
  assert (Hsym : forall r s, Equals r s = true -> Equals s r = true).
  { intros r s H. apply Equals_spec in H. apply Equals_spec.
    destruct H as (-> & -> & -> & -> & ->). auto. }
  assert (Htrans : forall r s t,
             Equals r s = true -> Equals s t = true -> Equals r t = true).
  { intros r s t H1 H2. apply Equals_spec in H1, H2. apply Equals_spec.
    destruct H1 as (-> & -> & -> & -> & ->). assumption. }
  repeat split.
  - assumption.
  - intros r s. destruct (Equals r s) eqn:E1, (Equals s r) eqn:E2;
      try reflexivity.
    + apply Hsym in E1. congruence.
    + apply Hsym in E2. congruence.
  - assumption.
  - intros l r s H.
    destruct (Contains l r) eqn:E1, (Contains l s) eqn:E2; try reflexivity.
    + apply Contains_spec in E1 as (x & Hx & E1).
      assert (Contains l s = true); [|congruence].
      apply Contains_spec. exists x. split; [assumption|].
      apply (Htrans s r x); [by apply Hsym|assumption].
    + apply Contains_spec in E2 as (x & Hx & E2).
      assert (Contains l r = true); [|congruence].
      apply Contains_spec. exists x. split; [assumption|].
      by apply (Htrans r s x).
Qed.

(** ** Rendering and parsing a line *)

Lemma take_app (s t : string) : Str.take (String.length s) (s +:+ t) = s.
Proof.
  induction s as [|a s IH]; [by destruct t|]. rewrite ?append_cons; simpl.
  by rewrite IH.
Qed.

Lemma all_nonempty_cons p s :
  nonempty s = true -> Str.all p s = true ->
  exists a s', s = String a s' /\ p a = true /\ Str.all p s' = true.
Proof.
  destruct s as [|a s']; [discriminate|]. simpl. intros _ H.
  apply andb_true_iff in H as [Ha Hs]. eauto.
Qed.

Section Star.

Variable p : ascii -> bool.

Lemma star_stop i s m k :
  head_in p s = false -> star p i s m k = k i s m.
Proof. destruct s as [|a s]; simpl; [reflexivity|]. by intros ->. Qed.

Lemma star_greedy tok rest i m k x :
  Str.all p tok = true ->
  star p (i + String.length tok) rest m k = Some x ->
  star p i (tok +:+ rest) m k = Some x.
Proof.
  revert i. induction tok as [|a tok IH]; intros i Hall H; simpl in *.
  { by rewrite Nat.add_0_r in H. }
  apply andb_true_iff in Hall as [Ha Hall].
  rewrite ?append_cons; simpl. rewrite Ha.
  rewrite (IH (S i)); [reflexivity | assumption |].
  by rewrite <- Nat.add_succ_comm in H.
Qed.

Lemma star_backtrack tok a rest i m k x :
  Str.all p tok = true -> p a = true ->
  star p (S (i + String.length tok)) rest m k = None ->
  k (i + String.length tok) (String a rest) m = Some x ->
  star p i (tok +:+ String a rest) m k = Some x.
Proof.
  revert i. induction tok as [|b tok IH]; intros i Hall Ha Hfail H; simpl in *.
  { rewrite Nat.add_0_r in *. rewrite ?append_nil_l; simpl.
    by rewrite Ha, Hfail. }
  apply andb_true_iff in Hall as [Hb Hall].
  rewrite ?append_cons; simpl. rewrite Hb.
  rewrite (IH (S i)); [reflexivity | assumption | assumption | |].
  - by rewrite <- Nat.add_succ_comm in Hfail.
  - by rewrite <- Nat.add_succ_comm in H.
Qed.

(** A group of [PlusC p] takes a whole token when what follows is not in
    [p]. *)
Lemma exec_token n tok rest i m k x :
  nonempty tok = true -> Str.all p tok = true -> head_in p rest = false ->
  k (i + String.length tok) rest (<[n := tok]> m) = Some x ->
  exec (Cap n (PlusC p)) i (tok +:+ rest) m k = Some x.
Proof.
  intros Hne Hall Hrest H.
  destruct (all_nonempty_cons _ _ Hne Hall) as (a & tok' & -> & Ha & Hall').
  rewrite ?append_cons; simpl. rewrite Ha.
  apply star_greedy; [assumption|]. rewrite star_stop by assumption.
  simpl in H. rewrite <- Nat.add_succ_comm in H.
  replace (S i + String.length tok' - i) with (S (String.length tok')) by lia.
  simpl. by rewrite take_app.
Qed.

(** It gives back one byte when the match fails after the longest run. *)
Lemma exec_token_backtrack n tok a rest i m k x :
  nonempty tok = true -> Str.all p tok = true -> p a = true ->
  head_in p rest = false ->
  (forall m', k (S (i + String.length tok)) rest m' = None) ->
  k (i + String.length tok) (String a rest) (<[n := tok]> m) = Some x ->
  exec (Cap n (PlusC p)) i (tok +:+ String a rest) m k = Some x.
Proof.
  intros Hne Hall Hpa Hrest Hfail H.
  destruct (all_nonempty_cons _ _ Hne Hall) as (b & tok' & -> & Hb & Hall').
  rewrite ?append_cons; simpl. rewrite Hb.
  simpl in H, Hfail.
  apply star_backtrack; try assumption.
  - rewrite star_stop by assumption.
    rewrite Nat.add_succ_comm. apply Hfail.
  - rewrite <- Nat.add_succ_comm in H.
    replace (S i + String.length tok' - i) with (S (String.length tok')) by lia.
    simpl. by rewrite take_app.
Qed.

Lemma exec_token_end n tok i m k x :
  nonempty tok = true -> Str.all p tok = true ->
  k (i + String.length tok) "" (<[n := tok]> m) = Some x ->
  exec (Cap n (PlusC p)) i tok m k = Some x.
Proof.
  intros Hne Hall H. rewrite <- (append_nil_r tok) at 1.
  by apply exec_token.
Qed.

Lemma star_all s i m k x :
  Str.all p s = true ->
  k (i + String.length s) "" m = Some x ->
  star p i s m k = Some x.
Proof.
  intros Hall H. rewrite <- (append_nil_r s). by apply star_greedy.
Qed.

(** A group of [StarC p] takes the rest of a text that is all in [p]. *)
Lemma exec_rest n s i m k x :
  Str.all p s = true ->
  k (i + String.length s) "" (<[n := s]> m) = Some x ->
  exec (Cap n (StarC p)) i s m k = Some x.
Proof.
  intros Hall H. simpl. apply star_all; [assumption|].
  replace (i + String.length s - i) with (String.length s) by lia.
  by rewrite take_length.
Qed.

End Star.

Lemma star_spaces s i m k x :
  k (i + leading_spaces s) (trim_spaces_left s) m = Some x ->
  star space i s m k = Some x.
Proof.
  revert i. induction s as [|a s IH]; intros i H; simpl in *.
  { by rewrite Nat.add_0_r in H. }
  destruct (Ascii.eqb_spec a " ") as [->|Hne].
  - simpl in *. rewrite (IH (S i)); [reflexivity|].
    by rewrite <- Nat.add_succ_comm in H.
  - assert (Hs : space a = false) by (by apply Ascii.eqb_neq).
    rewrite Hs.
    assert (E : leading_spaces (String a s) = 0 /\ trim_spaces_left (String a s) = String a s).
    { destruct a as [[] [] [] [] [] [] [] []]; try (split; reflexivity). congruence. }
    simpl in E. destruct E as [E1 E2]. rewrite E1, E2, Nat.add_0_r in H. exact H.
Qed.

Lemma exec_Cat r1 r2 i s m k :
  exec (r1 ⋅ r2)%re i s m k = exec r1 i s m (fun i' s' m' => exec r2 i' s' m' k).
Proof. reflexivity. Qed.

Lemma exec_space i s m k : exec (Lit " ") i (String " " s) m k = k (i + 1) s m.
Proof. reflexivity. Qed.

Lemma exec_hash i s m k : exec (Lit "#") i (String "#" s) m k = k (i + 1) s m.
Proof. reflexivity. Qed.

Lemma exec_PlusC p i a s m k :
  exec (PlusC p) i (String a s) m k = if p a then star p (S i) s m k else None.
Proof. reflexivity. Qed.

Lemma exec_StarC p i s m k : exec (StarC p) i s m k = star p i s m k.
Proof. reflexivity. Qed.

Lemma exec_EndText i m k : exec EndText i "" m k = k i "" m.
Proof. reflexivity. Qed.

Lemma all_trim_spaces_left p s :
  Str.all p s = true -> Str.all p (trim_spaces_left s) = true.
Proof.
  induction s as [|a s IH]; [reflexivity|]. simpl. intros H.
  apply andb_true_iff in H as [Ha Hs].
  destruct a as [[] [] [] [] [] [] [] []]; simpl; rewrite ?Ha, ?Hs; auto.
Qed.

Lemma exec_Quest_skip r i s m k :
  exec r i s m k = None -> exec (Quest r) i s m k = k i s m.
Proof. simpl. by intros ->. Qed.

Lemma exec_Quest_take r i s m k x :
  exec r i s m k = Some x -> exec (Quest r) i s m k = Some x.
Proof. simpl. by intros ->. Qed.

Section Fields.

Variables uri dist comps : string.
Hypothesis uri_nonempty : nonempty uri = true.
Hypothesis uri_class : Str.all not_space uri = true.
Hypothesis uri_plain : starts_with "[" uri = false.
Hypothesis dist_nonempty : nonempty dist = true.
Hypothesis dist_class : Str.all not_space dist = true.
Hypothesis comps_nonempty : nonempty comps = true.
Hypothesis comps_class : Str.all not_hash_nl comps = true.

Lemma options_skipped rest i m k :
  exec (Quest options_re) i (String " " (uri +:+ rest)) m k
  = k i (String " " (uri +:+ rest)) m.
Proof.
  destruct uri as [|u uri']; [discriminate|].
  simpl in uri_plain. rewrite append_cons. simpl. by rewrite uri_plain.
Qed.

Ltac uri_dist :=
  rewrite !exec_Cat, options_skipped, exec_space;
  apply exec_token; [assumption..|reflexivity|]; rewrite exec_space;
  apply exec_token; [assumption..|reflexivity|]; rewrite exec_space.

Lemma exec_fields_no_comment i m k x :
  k (i + 1 + String.length uri + 1 + String.length dist + 1
     + String.length comps) ""
    (<[6 := comps]> (<[5 := dist]> (<[4 := uri]> m))) = Some x ->
  exec fields_re i
    (String " " (uri +:+ String " " (dist +:+ String " " comps))) m k
  = Some x.
Proof.
  intros H. unfold fields_re. uri_dist.
  apply exec_token_end; [assumption..|].
  rewrite exec_Quest_skip by reflexivity. exact H.
Qed.

Lemma exec_fields_comment cmt i m k x :
  Str.all any_but_nl cmt = true ->
  k (i + 1 + String.length uri + 1 + String.length dist + 1
     + String.length comps + 3 + leading_spaces cmt
     + String.length (trim_spaces_left cmt)) ""
    (<[7 := trim_spaces_left cmt]>
       (<[6 := comps]> (<[5 := dist]> (<[4 := uri]> m)))) = Some x ->
  exec fields_re i
    (String " " (uri +:+ String " " (dist +:+ String " "
       (comps +:+ String " " (String "#" (String " " cmt)))))) m k
  = Some x.
Proof.
  intros Hcmt H. unfold fields_re. uri_dist.
  apply exec_token_backtrack; [assumption.. |reflexivity|reflexivity|reflexivity|].
  apply exec_Quest_take. unfold comment_re.
  rewrite !exec_Cat, exec_PlusC. simpl space. cbv iota.
  rewrite star_stop by reflexivity. rewrite exec_hash, exec_StarC.
  apply star_spaces. simpl leading_spaces. simpl trim_spaces_left.
  apply exec_rest; [by apply all_trim_spaces_left|].
  rewrite exec_EndText.
  match goal with
  | |- k ?j _ _ = _ =>
      replace j with
        (i + 1 + String.length uri + 1 + String.length dist + 1
         + String.length comps + 3 + leading_spaces cmt
         + String.length (trim_spaces_left cmt)) by lia
  end.
  exact H.
Qed.

End Fields.

Lemma aptConfigLineRegexp_fields i s m k :
  exec aptConfigLineRegexp i s m k =
  exec (BeginText ⋅ Quest (Cap 1 (Lit "# "))
        ⋅ Cap 2 (Alt (Lit "deb") (Lit "deb-src")))%re i s m
    (fun i' s' m' => exec fields_re i' s' m' k).
Proof. reflexivity. Qed.

Lemma find_from_first r i s m :
  match_at r i s = Some m -> find_from r i s = Some m.
Proof. intros H. destruct s; simpl; by rewrite H. Qed.

Lemma exec_BeginText s m k : exec BeginText 0 s m k = k 0 s m.
Proof. reflexivity. Qed.

Lemma strip_prefix_app l s : Str.strip_prefix l (l +:+ s) = Some s.
Proof.
  induction l as [|a l IH]; [by destruct s|].
  rewrite append_cons. simpl. by rewrite Ascii.eqb_refl.
Qed.

Lemma exec_Cap_Lit n l i s m k :
  exec (Cap n (Lit l)) i (l +:+ s) m k =
  k (i + String.length l) s (<[n := l]> m).
Proof.
  change (exec (Cap n (Lit l)) i (l +:+ s) m k) with
    (match Str.strip_prefix l (l +:+ s) with
     | Some s' =>
         k (i + String.length l) s'
           (<[n := Str.take (i + String.length l - i) (l +:+ s)]> m)
     | None => None
     end).
  rewrite strip_prefix_app.
  replace (i + String.length l - i) with (String.length l) by lia.
  by rewrite take_app.
Qed.

Lemma exec_Cap_Alt n r1 r2 i s m k :
  exec (Cap n (Alt r1 r2)) i s m k =
  match exec (Cap n r1) i s m k with
  | Some res => Some res
  | None => exec (Cap n r2) i s m k
  end.
Proof. reflexivity. Qed.

Lemma exec_deb i s m k x :
  k (i + 3) s (<[2 := "deb"]> m) = Some x ->
  exec (Cap 2 (Alt (Lit "deb") (Lit "deb-src"))) i ("deb" +:+ s) m k = Some x.
Proof.
  intros H. rewrite exec_Cap_Alt, exec_Cap_Lit. simpl String.length.
  by rewrite H.
Qed.

Lemma exec_deb_src i s m k x :
  (forall m', k (i + 3) ("-src" +:+ s) m' = None) ->
  k (i + 7) s (<[2 := "deb-src"]> m) = Some x ->
  exec (Cap 2 (Alt (Lit "deb") (Lit "deb-src"))) i ("deb-src" +:+ s) m k = Some x.
Proof.
  intros Hfail H. rewrite exec_Cap_Alt.
  change ("deb-src" +:+ s) with ("deb" +:+ ("-src" +:+ s)) at 1.
  rewrite exec_Cap_Lit. simpl String.length. rewrite Hfail.
  rewrite exec_Cap_Lit. exact H.
Qed.

Lemma APTConfigLine_plain en src opts uri dist comps cmt :
  blank opts = true ->
  APTConfigLine (mkRepository en src opts uri dist comps cmt) =
  (if en then "" else "# ") +:+ (if src then "deb-src" else "deb") +:+
  String " " (uri +:+ String " " (dist +:+ String " "
    (comps +:+ (if blank cmt then ""
                else String " " (String "#" (String " " cmt)))))).
Proof.
  intros Hopts. unfold APTConfigLine. simpl. rewrite Hopts. simpl.
  destruct en, src, (blank cmt); simpl; rewrite ?append_assoc, ?append_nil_r;
    reflexivity.
Qed.

Lemma match_at_plain en src uri dist comps cmt :
  nonempty uri = true -> Str.all not_space uri = true ->
  starts_with "[" uri = false ->
  nonempty dist = true -> Str.all not_space dist = true ->
  nonempty comps = true -> Str.all not_hash_nl comps = true ->
  Str.all any_but_nl cmt = true ->
  exists whole,
    match_at aptConfigLineRegexp 0
      (APTConfigLine (mkRepository en src "" uri dist comps cmt))
    = Some [whole; if en then "" else "# "; if src then "deb-src" else "deb";
            ""; uri; dist; comps;
            if blank cmt then "" else trim_spaces_left cmt].
Proof.
  intros U1 U2 U3 D1 D2 C1 C2 M.
  rewrite APTConfigLine_plain by reflexivity.
  unfold match_at. rewrite aptConfigLineRegexp_fields, !exec_Cat, exec_BeginText.
  destruct en.
  - rewrite append_nil_l. rewrite exec_Quest_skip by (by destruct src).
    destruct src, (blank cmt) eqn:B; rewrite ?append_nil_r; eexists.
    + apply exec_deb_src; [reflexivity|].
      apply exec_fields_no_comment; try assumption. reflexivity.
    + apply exec_deb_src; [reflexivity|].
      apply exec_fields_comment; try assumption. reflexivity.
    + apply exec_deb. apply exec_fields_no_comment; try assumption. reflexivity.
    + apply exec_deb. apply exec_fields_comment; try assumption. reflexivity.
  - destruct src, (blank cmt) eqn:B; rewrite ?append_nil_r; eexists;
      apply exec_Quest_take; rewrite exec_Cap_Lit.
    + apply exec_deb_src; [reflexivity|].
      apply exec_fields_no_comment; try assumption. reflexivity.
    + apply exec_deb_src; [reflexivity|].
      apply exec_fields_comment; try assumption. reflexivity.
    + apply exec_deb. apply exec_fields_no_comment; try assumption. reflexivity.
    + apply exec_deb. apply exec_fields_comment; try assumption. reflexivity.
Qed.

(** A plain repository is rendered to a line that parses to the same
    repository, its comment without leading spaces, or without comment
    when that is blank. *)
Lemma parseAPTConfigLine_APTConfigLine_plain (r : Repository) :
  plain r = true ->
  parseAPTConfigLine (APTConfigLine r) =
  Some {| Enabled := Enabled r; SourceRepo := SourceRepo r; Options := "";
          URI := URI r; Distribution := Distribution r;
          Components := Components r;
          Comment := if blank (Comment r) then ""
                     else trim_spaces_left (Comment r) |}.
Proof.
  destruct r as [en src opts uri dist comps cmt]. unfold plain. simpl.
  intros H. repeat (apply andb_true_iff in H as [H ?]).
  apply String.eqb_eq in H as ->.
  destruct (match_at_plain en src uri dist comps cmt) as [whole Hm];
    try assumption.
  { by apply negb_true_iff. }
  unfold parseAPTConfigLine, FindStringSubmatch.
  rewrite (find_from_first _ _ _ _ Hm). simpl.
  by destruct en, src.
Qed.

(** X2: the round trip holds for plain repositories: without options,
    with fields in the classes of the pattern and a URI that does not
    begin with "[".  The rendered line is parsed, and the record agrees
    with the repository on the five fields of equality and on Enabled. *)
Lemma round_trip_plain (r : Repository) :
  plain r = true ->
  exists r', parseAPTConfigLine (APTConfigLine r) = Some r'
             /\ Equals r' r = true /\ Enabled r' = Enabled r.
Proof.
  intros H. eexists. split; [by apply parseAPTConfigLine_APTConfigLine_plain|].
  split; [|reflexivity]. apply Equals_spec. simpl.
  unfold plain in H. repeat (apply andb_true_iff in H as [H ?]).
  apply String.eqb_eq in H. auto.
Qed.

Lemma round_trip_plain_witness :
  exists r', parseAPTConfigLine (APTConfigLine disabled_source) = Some r'
             /\ Equals r' disabled_source = true
             /\ Enabled r' = Enabled disabled_source.
Proof. apply (round_trip_plain disabled_source). reflexivity. Defined.

Lemma blank_trim_spaces_left (s : string) :
  blank (trim_spaces_left s) = blank s.
Proof.
  induction s as [|a s IH]; [reflexivity|].
  destruct (Ascii.eqb_spec a " ") as [->|Hne]; [exact IH|].
  destruct a as [[] [] [] [] [] [] [] []]; try reflexivity. congruence.
Qed.

Lemma trim_spaces_left_id (s : string) :
  starts_with " " s = false -> trim_spaces_left s = s.
Proof.
  destruct s as [|a s]; [reflexivity|]. simpl. intros H.
  destruct a as [[] [] [] [] [] [] [] []]; try reflexivity. discriminate.
Qed.

(** X3: rendering, parsing and rendering again gives the first rendering
    for plain repositories whose comment is blank or does not begin with a
    space. *)
Lemma render_again_plain (r : Repository) :
  plain r = true ->
  blank (Comment r) = true \/ starts_with " " (Comment r) = false ->
  APTConfigLine <$> parseAPTConfigLine (APTConfigLine r) = Some (APTConfigLine r).
Proof.
  intros H Hc. rewrite parseAPTConfigLine_APTConfigLine_plain by assumption.
  simpl. f_equal.
  destruct r as [en src opts uri dist comps cmt]. unfold plain in H.
  simpl in *. repeat (apply andb_true_iff in H as [H ?]).
  apply String.eqb_eq in H as ->. unfold APTConfigLine. simpl.
  destruct (blank cmt) eqn:B; simpl; [reflexivity|].
  destruct Hc as [Hc|Hc]; [discriminate|].
  rewrite trim_spaces_left_id by assumption. by rewrite B.
Qed.

Lemma render_again_plain_witness :
  APTConfigLine <$> parseAPTConfigLine (APTConfigLine disabled_source)
  = Some (APTConfigLine disabled_source).
Proof.
  apply (render_again_plain disabled_source); [reflexivity | right; reflexivity].
Defined.

(** The repository with the options "arch=amd64", which the parser
    returns for the line "deb [arch=amd64] http://example.com/ stable main",
    is rendered without a space after the "]"; the parser reads that line
    as a repository without options whose URI begins with the bracket. *)
Example APTConfigLine_amd64 :
  parseAPTConfigLine "deb [arch=amd64] http://example.com/ stable main"
    = Some amd64_repo
  /\ APTConfigLine amd64_repo = "deb [arch=amd64]http://example.com/ stable main"
  /\ parseAPTConfigLine (APTConfigLine amd64_repo) =
       Some (mkRepository true false "" "[arch=amd64]http://example.com/"
               "stable" "main" "")
  /\ Equals amd64_repo
       (mkRepository true false "" "[arch=amd64]http://example.com/"
          "stable" "main" "") = false.
Proof. repeat split; vm_compute; reflexivity. Qed.

(** The repository with the options "arch=amd64", the URI "http://[::1]"
    and the components "main contrib" is rendered to
    "deb [arch=amd64]http://[::1] stable main contrib"; that line parses
    with everything up to the last "]" as options, and rendering the
    result gives a different line, without the space before "stable". *)
Example APTConfigLine_ipv6 :
  APTConfigLine ipv6_repo = "deb [arch=amd64]http://[::1] stable main contrib"
  /\ parseAPTConfigLine (APTConfigLine ipv6_repo) =
       Some (mkRepository true false "arch=amd64]http://[::1" "stable"
               "main" "contrib" "")
  /\ APTConfigLine <$> parseAPTConfigLine (APTConfigLine ipv6_repo) =
       Some "deb [arch=amd64]http://[::1]stable main contrib"
  /\ APTConfigLine <$> parseAPTConfigLine (APTConfigLine ipv6_repo) <>
       Some (APTConfigLine ipv6_repo).
Proof. repeat split; vm_compute; [reflexivity..|discriminate]. Qed.

(** The examples of the specification, and lines that give no record. *)
Example parse_blank_line : parseAPTConfigLine "" = None.
Proof. vm_compute. reflexivity. Qed.

Example parse_comment_line :
  parseAPTConfigLine "# See sources.list(5) for details" = None.
Proof. vm_compute. reflexivity. Qed.

Example parse_focal :
  parseAPTConfigLine focal_line = Some focal.
Proof. vm_compute. reflexivity. Qed.

Example parse_disabled_source :
  parseAPTConfigLine "# deb-src http://example.com/ stable main # disabled source"
  = Some (mkRepository false true "" "http://example.com/" "stable" "main"
            "disabled source").
Proof. vm_compute. reflexivity. Qed.

(** ** What a match says about the text *)

Lemma strip_prefix_Some l s s' :
  Str.strip_prefix l s = Some s' -> s = l +:+ s'.
Proof.
  revert s. induction l as [|a l IH]; intros s H; simpl in H.
  { by inversion H. }
  destruct s as [|b s]; [discriminate|].
  destruct (Ascii.eqb_spec a b) as [->|]; [|discriminate].
  rewrite append_cons. f_equal. by apply IH.
Qed.

Lemma star_sound p s i m k x :
  star p i s m k = Some x ->
  exists w s', s = w +:+ s' /\ Str.all p w = true
               /\ k (i + String.length w) s' m = Some x.
Proof.
  revert i. induction s as [|a s IH]; intros i H; simpl in H.
  { exists "", "". rewrite Nat.add_0_r. auto. }
  destruct (p a) eqn:Ha.
  - destruct (star p (S i) s m k) as [res|] eqn:E.
    + inversion H; subst res. destruct (IH _ E) as (w & s' & -> & Hw & Hk).
      exists (String a w), s'.
      replace (i + String.length (String a w)) with (S i + String.length w)
        by (simpl; lia).
      simpl. rewrite Ha, Hw. auto.
    + exists "", (String a s). rewrite Nat.add_0_r. auto.
  - exists "", (String a s). rewrite Nat.add_0_r. auto.
Qed.

Lemma exec_sound r : forall i s m k x,
  exec r i s m k = Some x ->
  exists i' s' m', matches r i s m i' s' m' /\ k i' s' m' = Some x.
Proof.
  induction r as [l|r1 IH1 r2 IH2|r1 IH1 r2 IH2|r1 IH1|p|p|n r1 IH1| |];
    intros i s m k x H; simpl in H.
  - destruct (Str.strip_prefix l s) as [s'|] eqn:E; [|discriminate].
    apply strip_prefix_Some in E. exists (i + String.length l), s', m.
    simpl. auto.
  - apply IH1 in H as (j & t & n & H1 & H).
    apply IH2 in H as (i' & s' & m' & H2 & H).
    exists i', s', m'. simpl. eauto 10.
  - destruct (exec r1 i s m k) as [res|] eqn:E.
    + inversion H; subst res. apply IH1 in E as (i' & s' & m' & H1 & E).
      exists i', s', m'. simpl. auto.
    + apply IH2 in H as (i' & s' & m' & H2 & H).
      exists i', s', m'. simpl. auto.
  - destruct (exec r1 i s m k) as [res|] eqn:E.
    + inversion H; subst res. apply IH1 in E as (i' & s' & m' & H1 & E).
      exists i', s', m'. simpl. auto.
    + exists i, s, m. simpl. auto.
  - apply star_sound in H as (w & s' & -> & Hw & H).
    exists (i + String.length w), s', m. simpl. eauto 10.
  - destruct s as [|a s]; [discriminate|].
    destruct (p a) eqn:Ha; [|discriminate].
    apply star_sound in H as (w & s' & -> & Hw & H).
    exists (S i + String.length w), s', m. split; [|assumption].
    exists (String a w). simpl. rewrite Ha, Hw.
    repeat split; lia.
  - apply IH1 in H as (i' & s' & m' & H1 & H).
    exists i', s', (<[n := Str.take (i' - i) s]> m'). simpl. eauto.
  - destruct (Nat.eqb_spec i 0) as [->|]; [|discriminate].
    exists 0, s, m. simpl. auto.
  - destruct s; [|discriminate]. exists i, "", m. simpl. auto.
Qed.

Lemma find_from_sound r s i x :
  find_from r i s = Some x -> exists j t, i <= j /\ match_at r j t = Some x /\ (j = i -> t = s).
Proof.
  revert i. induction s as [|a s IH]; intros i H; simpl in H.
  - destruct (match_at r i "") eqn:E; [|discriminate].
    inversion H; subst. exists i, "". auto.
  - destruct (match_at r i (String a s)) eqn:E.
    + inversion H; subst. exists i, (String a s). auto.
    + apply IH in H as (j & t & Hj & H & _). exists j, t.
      repeat split; [lia|assumption|lia].
Qed.

Lemma take_add_sub j w s : Str.take (j + String.length w - j) (w +:+ s) = w.
Proof.
  replace (j + String.length w - j) with (String.length w) by lia.
  apply take_app.
Qed.

Ltac break :=
  repeat match goal with
    | H : exists _, _ |- _ => destruct H
    | H : _ /\ _ |- _ => destruct H
    | H : _ \/ _ |- _ => destruct H
    end.

Ltac shape_parts :=
  rewrite ?append_assoc, ?append_nil_r; simpl;
  repeat split; try assumption; try reflexivity;
  try first [ left; split; reflexivity
            | right; reflexivity
            | right; do 2 eexists; repeat split; eassumption ].

(** A record is returned only for a line of its shape. *)
Theorem parseAPTConfigLine_sound line r :
  parseAPTConfigLine line = Some r -> shape line r.
Proof.
  unfold parseAPTConfigLine, FindStringSubmatch.
  destruct (find_from aptConfigLineRegexp 0 line) as [x|] eqn:E; [|discriminate].
  apply find_from_sound in E as (j & t & _ & E & Ht).
  unfold match_at in E. apply exec_sound in E as (i' & s' & m' & H & E).
  inversion E; subst x; clear E.
  generalize (Str.take (i' - j) t). intros whole.
  cbn [matches aptConfigLineRegexp options_re comment_re] in H.
  break; subst; specialize (Ht eq_refl); subst line;
    rewrite ?take_add_sub; unfold field; simpl; intros [= <-]; unfold shape;
    simpl; rewrite ?append_nil_r.
  all: first
    [ solve [exists "", ""; shape_parts]
    | match goal with
      | Hs : Str.all space ?sp = true, Hs' : Str.all space ?sp' = true,
        Hc : Str.all any_but_nl ?c = true |- _ =>
          solve [exists "", (sp +:+ "#" +:+ sp' +:+ c); shape_parts]
      end
    | match goal with
      | Ho : Str.all any_but_nl ?w = true |- _ =>
          solve [exists (" [" +:+ w +:+ "]"), ""; shape_parts]
      end
    | match goal with
      | Hs : Str.all space ?sp = true, Hs' : Str.all space ?sp' = true,
        Hc : Str.all any_but_nl ?c = true,
        Ho : Str.all any_but_nl ?w = true |- _ =>
          solve [exists (" [" +:+ w +:+ "]"), (sp +:+ "#" +:+ sp' +:+ c);
                 shape_parts]
      end ].
Qed.

Lemma star_fallback p s i m k :
  is_Some (k i s m) -> is_Some (star p i s m k).
Proof.
  intros H. destruct s as [|a s]; simpl; [assumption|].
  destruct (p a); [|assumption]. by destruct (star p (S i) s m k).
Qed.

Lemma star_complete p w s' i m k :
  Str.all p w = true -> is_Some (k (i + String.length w) s' m) ->
  is_Some (star p i (w +:+ s') m k).
Proof.
  revert i. induction w as [|a w IH]; intros i Hw H; simpl in *.
  { rewrite Nat.add_0_r in H. by apply star_fallback. }
  apply andb_true_iff in Hw as [Ha Hw]. rewrite ?append_cons; simpl.
  rewrite Ha. rewrite <- Nat.add_succ_comm in H.
  destruct (IH (S i) Hw H) as [x ->]. eauto.
Qed.

Lemma exec_complete r : forall i s m i' s' m',
  matches r i s m i' s' m' ->
  forall k, (forall n, is_Some (k i' s' n)) ->
  forall n, is_Some (exec r i s n k).
Proof.
  induction r as [l|r1 IH1 r2 IH2|r1 IH1 r2 IH2|r1 IH1|p|p|c r1 IH1| |];
    intros i s m i' s' m' H k Hk n; simpl in H; simpl.
  - destruct H as (-> & -> & _). rewrite strip_prefix_app. apply Hk.
  - destruct H as (j & t & n1 & H1 & H2).
    apply (IH1 _ _ _ _ _ _ H1). intros n'. by apply (IH2 _ _ _ _ _ _ H2).
  - destruct (exec r1 i s n k) eqn:E; [eauto|].
    destruct H as [H|H]; [|by apply (IH2 _ _ _ _ _ _ H)].
    destruct (IH1 _ _ _ _ _ _ H k Hk n) as [x Hx]. congruence.
  - destruct (exec r1 i s n k) eqn:E; [eauto|].
    destruct H as [H|(-> & -> & _)]; [|apply Hk].
    destruct (IH1 _ _ _ _ _ _ H k Hk n) as [x Hx]. congruence.
  - destruct H as (w & -> & Hw & -> & _). by apply star_complete.
  - destruct H as (w & -> & Hne & Hw & -> & _).
    destruct w as [|a w]; [discriminate|]. simpl in Hw.
    apply andb_true_iff in Hw as [Ha Hw]. rewrite ?append_cons; simpl.
    rewrite Ha. apply star_complete; [assumption|].
    rewrite Nat.add_succ_comm. apply Hk.
  - destruct H as (m1 & H & _). apply (IH1 _ _ _ _ _ _ H). intros n'. apply Hk.
  - destruct H as (-> & -> & -> & _). apply Hk.
  - destruct H as (-> & -> & -> & _). apply Hk.
Qed.

Lemma matches_length r : forall i s m i' s' m',
  matches r i s m i' s' m' -> length m' = length m.
Proof.
  induction r as [l|r1 IH1 r2 IH2|r1 IH1 r2 IH2|r1 IH1|p|p|c r1 IH1| |];
    intros i s m i' s' m' H; simpl in H; break; subst;
    rewrite ?length_insert; try reflexivity; eauto.
  - erewrite IH2 by eassumption. eauto.
  - unfold submatches in *. rewrite length_insert. eauto.
Qed.

Ltac build :=
  lazymatch goal with
  | |- _ /\ _ => split; [build | build]
  | |- exists _, _ => eexists; build
  | |- _ \/ _ => (left; build) + (right; build)
  | |- _ = _ => first [reflexivity | eassumption]
  end.

Lemma shape_matches line r :
  shape line r ->
  exists i' m',
    matches aptConfigLineRegexp 0 line
      (replicate (S (groups aptConfigLineRegexp)) "") i' "" m'.
Proof.
  intros (bracket & tail & -> & Hb & Ht & Ho & HU1 & HU2 & HD1 & HD2 & HC1 & HC2 & HM).
  destruct Hb as [[-> Hopt] | ->],
           Ht as [[-> Hc] | (sp & sp' & Hsp1 & Hsp2 & Hsp' & ->)];
    destruct (Enabled r), (SourceRepo r);
    rewrite ?append_assoc, ?append_nil_l;
    try rewrite <- (append_nil_r (sp' +:+ Comment r)), append_assoc;
    cbn [matches aptConfigLineRegexp options_re comment_re]; build.
Qed.

(** A line of the shape of a repository gives a record. *)
Theorem parseAPTConfigLine_complete line r :
  shape line r -> exists r', parseAPTConfigLine line = Some r'.
Proof.
  intros H. apply shape_matches in H as (i' & m' & H).
  destruct (exec_complete _ _ _ _ _ _ _ H
              (fun i' _ m => Some (<[0 := Str.take (i' - 0) line]> m))
              (fun n => ltac:(eauto))
              (replicate (S (groups aptConfigLineRegexp)) "")) as [x Hx].
  fold (match_at aptConfigLineRegexp 0 line) in Hx.
  unfold parseAPTConfigLine, FindStringSubmatch.
  rewrite (find_from_first _ _ _ _ Hx).
  apply exec_sound in Hx as (j & t & n & Hn & Hx). inversion Hx; subst x.
  apply matches_length in Hn. unfold submatches in *.
  rewrite length_insert, Hn. simpl. eauto.
Qed.

(** A line gives no record exactly when it has the shape of no
    repository. *)
Theorem parseAPTConfigLine_None line :
  parseAPTConfigLine line = None <-> forall r, ~ shape line r.
Proof.
  split.
  - intros H r Hr. apply parseAPTConfigLine_complete in Hr as [r' Hr].
    congruence.
  - intros H. destruct (parseAPTConfigLine line) as [r|] eqn:E; [|reflexivity].
    apply parseAPTConfigLine_sound in E. by destruct (H r).
Qed.

(** X1: [parseAPTConfigLine] accepts exactly the lines of the grammar: a
    record is returned only for a line of its shape, so the fields are the
    pieces of the line, and every line that has the shape of some
    repository gives a record. *)
Theorem parseAPTConfigLine_grammar (line : string) :
  (forall r, parseAPTConfigLine line = Some r -> shape line r)
  /\ ((exists r, shape line r) -> exists r, parseAPTConfigLine line = Some r).
Proof.
  split.
  - intros r. apply parseAPTConfigLine_sound.
  - intros [r Hr]. by apply parseAPTConfigLine_complete in Hr.
Qed.

(** ** The space after the options *)

Lemma APTConfigLine_options en src opts uri dist comps cmt :
  blank opts = false ->
  APTConfigLine (mkRepository en src opts uri dist comps cmt) =
  (if en then "" else "# ") +:+ (if src then "deb-src" else "deb") +:+
  " [" +:+ opts +:+ "]" +:+ uri +:+ " " +:+ dist +:+ " " +:+ comps +:+
  (if blank cmt then "" else " # " +:+ cmt).
Proof.
  intros Hopts. unfold APTConfigLine. simpl. rewrite Hopts. simpl.
  destruct en, src, (blank cmt); simpl; rewrite ?append_assoc, ?append_nil_r;
    reflexivity.
Qed.

(** C1: the round trip fails for every repository with options.  When
    the options are not blank, what [parseAPTConfigLine] returns for the
    rendered line, if anything, is not equal to the repository: the line
    has no space after the "]" of the options, and the pattern asks for
    one. *)
Theorem options_never_read_back (r r' : Repository) :
  blank (Options r) = false ->
  parseAPTConfigLine (APTConfigLine r) = Some r' ->
  Equals r r' = false.
Proof.
  intros Hopts Hparse. destruct (Equals r r') eqn:E; [exfalso|reflexivity].
  apply Equals_spec in E as (HU & HD & HC & HS & HO).
  apply parseAPTConfigLine_sound in Hparse
    as (bracket & tail & Hline & Hb & _ & _ & Hne & Hcl & _).
  destruct Hb as [[_ Hb] | ->].
  { rewrite <- HO in Hb. rewrite Hb in Hopts. discriminate. }
  rewrite <- HU, <- HS, <- HO in *.
  destruct r as [en src opts uri dist comps cmt]; simpl in *.
  rewrite APTConfigLine_options in Hline by assumption.
  destruct uri as [|u uri]; [discriminate|]. simpl in Hcl.
  apply andb_true_iff in Hcl as [Hu _].
  destruct en, (Enabled r'), src;
    rewrite ?append_cons, ?append_nil_l in Hline;
    try discriminate; simplify_eq;
    rewrite append_assoc in Hline;
    apply (inj (String.app (Options r'))) in Hline;
    rewrite ?append_cons, ?append_nil_l in Hline;
    injection Hline as -> _; discriminate.
Qed.

Lemma options_never_read_back_witness :
  Equals amd64_repo
    (mkRepository true false "" "[arch=amd64]http://example.com/" "stable"
       "main" "") = false.
Proof.
  apply (options_never_read_back amd64_repo);
    [reflexivity | vm_compute; reflexivity].
Defined.

(** Rendering never gives back a line that was parsed with options: the
    line has a space after the "]", the rendering has none. *)
Lemma rendered_options_lose_space (line : string) (r' : Repository) :
  parseAPTConfigLine line = Some r' ->
  blank (Options r') = false ->
  APTConfigLine r' <> line.
Proof.
  intros Hparse Hopts Heq.
  apply parseAPTConfigLine_sound in Hparse
    as (bracket & tail & Hline & Hb & _ & _ & Hne & Hcl & _).
  destruct Hb as [[_ Hb] | ->].
  { rewrite Hb in Hopts. discriminate. }
  rewrite <- Heq in Hline. clear Heq.
  destruct r' as [en src opts uri dist comps cmt]; simpl in *.
  rewrite APTConfigLine_options in Hline by assumption.
  destruct uri as [|u uri]; [discriminate|]. simpl in Hcl.
  apply andb_true_iff in Hcl as [Hu _].
  do 2 apply (inj (String.app _)) in Hline.
  rewrite !append_assoc in Hline.
  do 2 apply (inj (String.app _)) in Hline.
  rewrite ?append_cons, ?append_nil_l in Hline.
  injection Hline as -> _. discriminate.
Qed.

(** C9: rendering, parsing and rendering again does not give the first
    rendering whenever the rendered line is parsed with options that are
    not blank: the second rendering has no space after their "]". *)
Theorem render_again_differs (r r' : Repository) :
  parseAPTConfigLine (APTConfigLine r) = Some r' ->
  blank (Options r') = false ->
  APTConfigLine r' <> APTConfigLine r.
Proof. apply rendered_options_lose_space. Qed.

Lemma render_again_differs_witness :
  APTConfigLine
    (mkRepository true false "arch=amd64]http://[::1" "stable" "main"
       "contrib" "")
  <> APTConfigLine ipv6_repo.
Proof.
  apply render_again_differs; vm_compute; reflexivity.
Defined.

(** ** Parsing a config folder *)

Lemma take_while_all {A} (p : A -> bool) (l : list A) :
  Forall (fun x => p x = true) l -> bufio.take_while p l = l.
Proof.
  induction 1 as [|x l Hx _ IH]; [reflexivity|]. simpl. by rewrite Hx, IH.
Qed.

Lemma split_cons sep s : exists t tl, Str.split sep s = t :: tl.
Proof.
  destruct s as [|a s]; simpl; [eauto|].
  destruct (Ascii.eqb a sep); [eauto|]. destruct (Str.split sep s); eauto.
Qed.

Lemma drop_last_empty_cons x y l :
  bufio.drop_last_empty (x :: y :: l) = x :: bufio.drop_last_empty (y :: l).
Proof. destruct x; reflexivity. Qed.

(** The pieces between the newlines, without the empty piece after the
    last newline, are the lines of the text. *)
Lemma drop_last_empty_split (data : string) :
  bufio.drop_last_empty (Str.split "010" data) = linesOf data.
Proof.
  induction data as [|a data IH]; [reflexivity|]. simpl.
  destruct (split_cons "010" data) as (t & tl & E). rewrite E in *.
  destruct (Ascii.eqb a "010").
  - by rewrite drop_last_empty_cons, IH.
  - rewrite <- IH. destruct tl as [|y tl].
    + by destruct t.
    + by rewrite !drop_last_empty_cons.
Qed.

Lemma dropCR_without_cr (l : string) : bufio.dropCR l = without_cr l.
Proof.
  unfold without_cr. induction l as [|a l IH]; [reflexivity|].
  destruct l as [|b l].
  - simpl. destruct a as [[] [] [] [] [] [] [] []]; reflexivity.
  - transitivity (String a (bufio.dropCR (String b l))).
    { destruct a as [[] [] [] [] [] [] [] []]; reflexivity. }
    rewrite IH. set (s := String b l).
    replace (String.length (String a s) - 1) with (S (String.length s - 1))
      by (subst s; simpl; lia).
    change (String.get (S (String.length s - 1)) (String a s))
      with (String.get (String.length s - 1) s).
    change (String.substring 0 (S (String.length s - 1)) (String a s))
      with (String a (String.substring 0 (String.length s - 1) s)).
    destruct (String.get (String.length s - 1) s) as [c|]; [|reflexivity].
    destruct c as [[] [] [] [] [] [] [] []]; reflexivity.
Qed.

(** When no line has [MaxScanTokenSize] bytes or more, the scanner yields
    every line of the text, without the carriage return that ends it. *)
Lemma ScanLines_short_lines (data : string) :
  short_lines data ->
  bufio.ScanLines data = map without_cr (linesOf data).
Proof.
  intros H. unfold bufio.ScanLines. rewrite drop_last_empty_split.
  rewrite take_while_all.
  - apply map_ext, dropCR_without_cr.
  - eapply Forall_impl; [exact H|]. intros l Hl. by apply Nat.ltb_lt.
Qed.

Lemma short_lines_ltb (data : string) :
  forallb (fun l => (String.length l <? bufio.MaxScanTokenSize)%nat)
    (linesOf data) = true ->
  short_lines data.
Proof.
  intros H. apply Forall_forall. intros l Hl.
  rewrite forallb_forall in H. apply Nat.ltb_lt, H. by apply list_elem_of_In.
Qed.

Lemma parseLines_spec lines res :
  parseLines lines res = res ++ omap parseAPTConfigLine lines.
Proof.
  revert res. induction lines as [|line lines IH]; intros res; simpl.
  { by rewrite app_nil_r. }
  destruct (parseAPTConfigLine line) as [repo|]; rewrite IH; [|reflexivity].
  by rewrite <- app_assoc.
Qed.

Lemma listSources_spec sourcesFolder entries sources :
  listSources sourcesFolder entries sources =
  sources ++ map (fun l => filepath.Join [sourcesFolder; l])
               (filter (fun l => Str.has_suffix l ".list" = true) entries).
Proof.
  revert sources. induction entries as [|l entries IH]; intros sources; simpl.
  { by rewrite app_nil_r. }
  rewrite filter_cons. destruct (Str.has_suffix l ".list") eqn:E; rewrite IH.
  - rewrite decide_True by reflexivity. by rewrite <- app_assoc.
  - rewrite decide_False by discriminate. reflexivity.
Qed.

Lemma parseAPTConfigFile_readable fs configPath data :
  os.ReadFile fs configPath = Ok data ->
  parseAPTConfigFile fs configPath = Ok (recordsOf data).
Proof.
  intros H. unfold parseAPTConfigFile, recordsOf. rewrite H.
  by rewrite parseLines_spec.
Qed.

Lemma parseSources_short_lines fs sources res :
  Forall (fun source => exists data,
            os.ReadFile fs source = Ok data /\ short_lines data) sources ->
  parseSources fs sources res =
  Ok (res ++ concat (map (fun source =>
                            omap parseAPTConfigLine
                              (map without_cr (linesOf (contents fs source))))
                       sources)).
Proof.
  intros H. revert res.
  induction H as [|source sources (data & Hd & Hs) _ IH]; intros res; simpl.
  { by rewrite app_nil_r. }
  rewrite (parseAPTConfigFile_readable _ _ _ Hd), IH.
  unfold contents at 2. rewrite Hd. unfold recordsOf.
  rewrite ScanLines_short_lines by assumption. by rewrite <- app_assoc.
Qed.

(** C5, as amended: when sources.list.d can be listed, every source file
    can be read and no line of a source file has 65536 bytes or more,
    [ParseAPTConfigFolder] returns the records of sources.list, then those
    of each entry of sources.list.d with the extension .list in the order
    of the listing; the records of a file are those of its lines (without
    the carriage return that ends a line) in line order, where a line gives
    no record, and no error, exactly when it has the shape of no
    repository. *)
Theorem ParseAPTConfigFolder_order (fs : FS) (folderPath : string)
    (entries : list string) :
  os.ReadDir fs (filepath.Join [folderPath; "sources.list.d"]) = Ok entries ->
  Forall (fun source => exists data,
            os.ReadFile fs source = Ok data /\ short_lines data)
    (sourcesOf folderPath entries) ->
  ParseAPTConfigFolder fs folderPath =
    Ok (concat (map (fun source =>
                       omap parseAPTConfigLine
                         (map without_cr (linesOf (contents fs source))))
                  (sourcesOf folderPath entries)))
  /\ (forall line,
        parseAPTConfigLine line = None <-> forall r, ~ shape line r).
Proof.
  intros Hdir Hfiles. split; [|apply parseAPTConfigLine_None].
  unfold ParseAPTConfigFolder. rewrite Hdir.
  rewrite listSources_spec. apply (parseSources_short_lines fs _ []), Hfiles.
Qed.

(** C5, the claim as stated fails: sources.list.d can be listed and
    sources.list can be read; its first line is a comment of 65536 bytes
    and its second line is a repository.  The scanner stops at the first
    line with [ErrTooLong], which [parseAPTConfigFile] does not look at,
    and [ParseAPTConfigFolder] returns no record and no error. *)
Lemma ParseAPTConfigFolder_long_line_counterexample :
  os.ReadDir etc_apt_long_line "/etc/apt/sources.list.d" = Ok []
  /\ os.ReadFile etc_apt_long_line "/etc/apt/sources.list" =
       Ok (long_comment +:+ String "010" "deb http://a/ stable main")
  /\ omap parseAPTConfigLine
       (map without_cr
          (linesOf (long_comment +:+ String "010" "deb http://a/ stable main")))
     = [mkRepository true false "" "http://a/" "stable" "main" ""]
  /\ ParseAPTConfigFolder etc_apt_long_line "/etc/apt" = Ok [].
Proof.
  split; [vm_compute; reflexivity|].
  split; [reflexivity|].
  split; vm_compute; reflexivity.
Qed.

Lemma ParseAPTConfigFolder_order_witness :
  ParseAPTConfigFolder etc_apt "/etc/apt" =
  Ok [focal;
      mkRepository true true "" "http://a/" "stable" "main" "";
      mkRepository true false "" "http://b/" "stable" "main" ""].
Proof.
  refine (proj1 (ParseAPTConfigFolder_order etc_apt "/etc/apt"
                   ["a.list"; "b.list"; "c.txt"] _ _)).
  - vm_compute. reflexivity.
  - repeat constructor; eexists;
      (split; [vm_compute; reflexivity
              | apply short_lines_ltb; vm_compute; reflexivity]).
Defined.

(** C6: when sources.list.d cannot be listed, [ParseAPTConfigFolder] fails
    with the error of the listing; when sources.list does not exist it
    fails as well, with that error or with the error of reading the file. *)
Theorem ParseAPTConfigFolder_errors (fs : FS) (folderPath : string) :
  (forall err,
      os.ReadDir fs (filepath.Join [folderPath; "sources.list.d"]) = Error err ->
      ParseAPTConfigFolder fs folderPath =
      Error ("Reading " +:+ filepath.Join [folderPath; "sources.list.d"]
             +:+ " folder: " +:+ PathError_Error err))
  /\ (os.lookup_node fs (filepath.Join [folderPath; "sources.list"]) = None ->
      ParseAPTConfigFolder fs folderPath =
      match os.ReadDir fs (filepath.Join [folderPath; "sources.list.d"]) with
      | Error err =>
          Error ("Reading " +:+ filepath.Join [folderPath; "sources.list.d"]
                 +:+ " folder: " +:+ PathError_Error err)
      | Ok _ =>
          Error ("Parsing " +:+ filepath.Join [folderPath; "sources.list"]
                 +:+ ": " +:+
                 ("Reading " +:+ filepath.Join [folderPath; "sources.list"]
                  +:+ ": " +:+
                  PathError_Error
                    (mkPathError "open"
                       (filepath.Join [folderPath; "sources.list"]) ENOENT)))
      end).
Proof.
  split.
  - intros err H. unfold ParseAPTConfigFolder. by rewrite H.
  - intros H. unfold ParseAPTConfigFolder.
    destruct (os.ReadDir fs _) as [entries|err]; [|reflexivity].
    rewrite listSources_spec. simpl.
    unfold parseAPTConfigFile, os.ReadFile. by rewrite H.
Qed.

Lemma ParseAPTConfigFolder_errors_witness :
  ParseAPTConfigFolder etc_apt_no_dir "/etc/apt" =
    Error "Reading /etc/apt/sources.list.d folder: readdirent /etc/apt/sources.list.d: not a directory"
  /\ ParseAPTConfigFolder etc_apt_no_primary "/etc/apt" =
    Error "Parsing /etc/apt/sources.list: Reading /etc/apt/sources.list: open /etc/apt/sources.list: no such file or directory".
Proof.
  split.
  - refine (proj1 (ParseAPTConfigFolder_errors etc_apt_no_dir "/etc/apt")
              (mkPathError "readdirent" "/etc/apt/sources.list.d" ENOTDIR) _).
    vm_compute. reflexivity.
  - refine (proj2 (ParseAPTConfigFolder_errors etc_apt_no_primary "/etc/apt") _).
    vm_compute. reflexivity.
Defined.

(** ** Adding a repository *)

Lemma drop_nil (n : nat) : os.drop n "" = "".
Proof. by destruct n. Qed.

Lemma ReadFile_insert_ne nodes free name name' n :
  name <> name' ->
  os.ReadFile (mkFS (<[name := n]> nodes) free) name' =
  os.ReadFile (mkFS nodes free) name'.
Proof.
  intros H. unfold os.ReadFile, os.lookup_node. simpl.
  by rewrite lookup_insert_ne.
Qed.

Lemma ReadFile_free nodes free free' name :
  os.ReadFile (mkFS nodes free) name = os.ReadFile (mkFS nodes free') name.
Proof. reflexivity. Qed.

Lemma ReadFile_insert_dir nodes free name names names' m name' :
  nodes !! name = Some (Dir names m) ->
  os.ReadFile (mkFS (<[name := Dir names' m]> nodes) free) name' =
  os.ReadFile (mkFS nodes free) name'.
Proof.
  intros H. destruct (decide (name = name')) as [<-|Hne].
  - unfold os.ReadFile, os.lookup_node. simpl.
    by rewrite lookup_insert_eq, H.
  - by apply ReadFile_insert_ne.
Qed.

(** The conjuncts of a statement on a result that is known: those with a
    hypothesis that does not hold, and those that ask for the error. *)
Ltac cases :=
  repeat split; try discriminate; try lia; try (intros; discriminate);
  try (intros; lia).
Ltac refused :=
  match goal with H : _ = _ |- _ => subst; simpl end;
  cases; try (intros; eexists; reflexivity).

(** The outcomes of [AddRepository] in terms of what [Contains] answers
    for the parsed list. *)
Lemma AddRepository_cases (repo : Repository) (configFolderPath : string)
    (fs : FS) (repos : RepositoryList) :
  ParseAPTConfigFolder fs configFolderPath = Ok repos ->
  let managed := managedPath configFolderPath in
  let line := APTConfigLine repo +:+ String "010" "" in
  let res := AddRepository repo configFolderPath fs in
  (fst res = Some "The repository is already configured"
     <-> Contains repos repo = true)
  /\ (Contains repos repo = true -> snd res = fs)
  /\ (Contains repos repo = false -> can_open fs managed = false ->
      (exists err, fst res = Some ("Opening " +:+ managed +:+ ": " +:+ err))
      /\ snd res = fs)
  /\ (Contains repos repo = false -> can_open fs managed = true ->
      fs_free fs < String.length line ->
      exists err,
        fst res =
        Some ("Writing repo data to config file " +:+ managed +:+ ": " +:+ err))
  /\ (Contains repos repo = false -> can_open fs managed = true ->
      String.length line <= fs_free fs ->
      fst res = None
      /\ (exists m, os.lookup_node (snd res) managed =
                     Some (File (prior fs managed +:+ line) m))
      /\ (forall name, name <> managed ->
             os.ReadFile (snd res) name = os.ReadFile fs name)).
Proof.
  intros Hparse managed line res.
  assert (Hres : res = AddRepository repo configFolderPath fs) by reflexivity.
  clearbody res. unfold AddRepository in Hres. rewrite Hparse in Hres.
  fold (managedPath configFolderPath) in Hres. fold managed line in Hres.
  destruct (Contains repos repo) eqn:HC.
  { subst res. simpl. repeat split; auto; discriminate. }
  unfold can_open, prior. unfold os.OpenFile in Hres.
  destruct fs as [nodes free]. unfold os.lookup_node in *; simpl in *.
  destruct (nodes !! managed) as [[data m|names m]|] eqn:Hm; simpl in Hres.
  - (* the file exists *)
    destruct (writable m) eqn:Hw; simpl in Hres; [|by refused].
    unfold os.WriteString, os.lookup_node in Hres; simpl in Hres.
    rewrite Hm in Hres.
    destruct (String.length line <=? free)%nat eqn:Hroom; simpl in Hres;
      [apply Nat.leb_le in Hroom | apply Nat.leb_gt in Hroom; by refused].
    subst res; simpl. rewrite Nat.min_l, take_length by assumption.
    cases.
    + eexists. apply lookup_insert_eq.
    + intros name Hne. by rewrite ReadFile_insert_ne by congruence.
  - (* a directory *)
    by refused.
  - (* no such file: it is created in its directory *)
    rewrite Hm in Hres.
    destruct (nodes !! filepath.Dir managed) as [[pdata pm|pnames pm]|] eqn:Hp;
      simpl in Hres; [by refused| |by refused].
    destruct (writable pm) eqn:Hw; simpl in Hres; [|by refused].
    unfold os.WriteString, os.lookup_node in Hres; simpl in Hres.
    rewrite lookup_insert_eq in Hres. simpl in Hres.
    destruct (String.length line <=? free)%nat eqn:Hroom; simpl in Hres;
      [apply Nat.leb_le in Hroom | apply Nat.leb_gt in Hroom; by refused].
    subst res; simpl. rewrite Nat.min_l, take_length by assumption.
    cases.
    + eexists. by rewrite lookup_insert_eq, drop_nil, append_nil_r.
    + intros name Hne. rewrite !ReadFile_insert_ne by congruence.
      rewrite (ReadFile_free _ _ free).
      by apply ReadFile_insert_dir with (names := pnames).
Qed.

(** C3, as amended: when the folder parses, [AddRepository] fails with
    "The repository is already configured" exactly when the parsed list
    holds a repository with the same URI, Distribution, Components, kind
    and Options as the given one, and then changes nothing; otherwise,
    when managed.list cannot be opened or created for writing it fails
    with an "Opening" error and changes nothing, when the device has no
    room for the line it fails with a "Writing" error, and else it returns
    nil, the bytes of managed.list are the bytes it had (none when it did
    not exist) followed by the rendered line and a newline, and every
    other file reads as before. *)
Theorem AddRepository_spec (repo : Repository) (configFolderPath : string)
    (fs : FS) (repos : RepositoryList) :
  ParseAPTConfigFolder fs configFolderPath = Ok repos ->
  let managed := managedPath configFolderPath in
  let line := APTConfigLine repo +:+ String "010" "" in
  let res := AddRepository repo configFolderPath fs in
  (fst res = Some "The repository is already configured"
     <-> configured repos repo)
  /\ (configured repos repo -> snd res = fs)
  /\ (~ configured repos repo -> can_open fs managed = false ->
      (exists err, fst res = Some ("Opening " +:+ managed +:+ ": " +:+ err))
      /\ snd res = fs)
  /\ (~ configured repos repo -> can_open fs managed = true ->
      fs_free fs < String.length line ->
      exists err,
        fst res =
        Some ("Writing repo data to config file " +:+ managed +:+ ": " +:+ err))
  /\ (~ configured repos repo -> can_open fs managed = true ->
      String.length line <= fs_free fs ->
      fst res = None
      /\ (exists m, os.lookup_node (snd res) managed =
                     Some (File (prior fs managed +:+ line) m))
      /\ (forall name, name <> managed ->
             os.ReadFile (snd res) name = os.ReadFile fs name)).
Proof.
  intros Hparse managed line res.
  destruct (AddRepository_cases repo configFolderPath fs repos Hparse)
    as (H1 & H2 & H3 & H4 & H5).
  fold managed line res in H1, H2, H3, H4, H5.
  rewrite <- not_configured, <- Contains_configured. auto.
Qed.

(** C3, the claim as stated fails: the folder parses and holds no
    repository equal to the given one, managed.list is read-only, and
    [AddRepository] fails with an "Opening" error, not the duplicate error,
    and appends nothing. *)
Lemma AddRepository_read_only_counterexample :
  ParseAPTConfigFolder etc_apt_read_only "/etc/apt" =
    Ok [focal; mkRepository true false "" "http://b/" "stable" "main" ""]
  /\ ~ configured
         [focal; mkRepository true false "" "http://b/" "stable" "main" ""]
         example_repo
  /\ AddRepository example_repo "/etc/apt" etc_apt_read_only =
       (Some "Opening /etc/apt/sources.list.d/managed.list: open /etc/apt/sources.list.d/managed.list: permission denied",
        etc_apt_read_only).
Proof.
  split; [vm_compute; reflexivity|].
  split; [apply not_configured; vm_compute; reflexivity|].
  vm_compute. reflexivity.
Qed.

(** In /etc/apt the first repository, given again disabled and with a
    comment, is refused as a duplicate; a repository that is not there is
    appended to managed.list. *)
Lemma AddRepository_spec_witness :
  (configured
     [focal;
      mkRepository true true "" "http://a/" "stable" "main" "";
      mkRepository true false "" "http://b/" "stable" "main" ""]
     focal_disabled
   /\ AddRepository focal_disabled "/etc/apt" etc_apt =
      (Some "The repository is already configured", etc_apt))
  /\ fst (AddRepository example_repo "/etc/apt" etc_apt) = None
  /\ (exists m,
        os.lookup_node (snd (AddRepository example_repo "/etc/apt" etc_apt))
          (managedPath "/etc/apt")
        = Some (File (prior etc_apt (managedPath "/etc/apt")
                      +:+ (APTConfigLine example_repo +:+ String "010" "")) m)).
Proof.
  assert (Hparse : ParseAPTConfigFolder etc_apt "/etc/apt" =
                   Ok [focal;
                       mkRepository true true "" "http://a/" "stable" "main" "";
                       mkRepository true false "" "http://b/" "stable" "main" ""])
    by (vm_compute; reflexivity).
  assert (Hdup : configured
                   [focal;
                    mkRepository true true "" "http://a/" "stable" "main" "";
                    mkRepository true false "" "http://b/" "stable" "main" ""]
                   focal_disabled).
  { apply Exists_cons_hd. repeat split. }
  split.
  - split; [exact Hdup|].
    destruct (AddRepository_spec focal_disabled "/etc/apt" etc_apt _ Hparse)
      as (H1 & H2 & _).
    apply injective_projections; [apply H1, Hdup | apply H2, Hdup].
  - destruct (AddRepository_spec example_repo "/etc/apt" etc_apt _ Hparse)
      as (_ & _ & _ & _ & H).
    destruct H as (H1 & H2 & _).
    + apply not_configured. vm_compute. reflexivity.
    + vm_compute. reflexivity.
    + apply Nat.leb_le. vm_compute. reflexivity.
    + split; assumption.
Defined.

(** ** The package-status parser *)

Lemma parseDpkgQueryLines_six_fields lines res :
  Forall (fun line => 6 <= length (Str.split "009" line)) lines ->
  parseDpkgQueryLines lines res = Returns (res ++ map packageOfLine lines).
Proof.
  intros H. revert res. induction H as [|line lines H6 _ IH]; intros res; simpl.
  { by rewrite app_nil_r. }
  unfold index, packageOfLine.
  destruct (Str.split "009" line) as [|d0 [|d1 [|d2 [|d3 [|d4 [|d5 data]]]]]];
    simpl in H6; try lia.
  simpl. rewrite IH, <- app_assoc. reflexivity.
Qed.

(** A size field that [strconv.Atoi] rejects gives the size 0; the other
    fields are those of the line. *)
Lemma packageOfLine_bad_size line :
  strconv.Atoi (default "" (Str.split "009" line !! 4)) = None ->
  InstalledSizeKB (packageOfLine line) = 0%Z
  /\ Name (packageOfLine line) = default "" (Str.split "009" line !! 0)
  /\ Architecture (packageOfLine line) = default "" (Str.split "009" line !! 1)
  /\ Status (packageOfLine line) = default "" (Str.split "009" line !! 2)
  /\ Version (packageOfLine line) = default "" (Str.split "009" line !! 3)
  /\ ShortDescription (packageOfLine line) = default "" (Str.split "009" line !! 5).
Proof.
  intros H. unfold packageOfLine. simpl. rewrite H. repeat split.
Qed.

(** A line with fewer than six fields makes the parser panic, whatever
    follows it. *)
Lemma parseDpkgQueryLines_short_line line lines res :
  length (Str.split "009" line) < 6 ->
  parseDpkgQueryLines (line :: lines) res =
  Panics (if (length (Str.split "009" line) <? 5)%nat then 4 else 5)
    (length (Str.split "009" line)).
Proof.
  intros H. simpl. unfold index.
  destruct (Str.split "009" line) as [|d0 [|d1 [|d2 [|d3 [|d4 [|d5 data]]]]]];
    simpl in *; try reflexivity; lia.
Qed.

(** C2: on the line "pkg<TAB>amd64<TAB>installed<TAB>1.0", which has no
    installed-size field, [parseDpkgQueryOutput] does not return: the
    access [data[4]] is out of range for the four fields. *)
Theorem parseDpkgQueryOutput_missing_size_panics :
  parseDpkgQueryOutput
    ("pkg" +:+ String "009" "amd64" +:+ String "009" "installed"
     +:+ String "009" "1.0" +:+ String "010" "")
  = Panics 4 4.
Proof. vm_compute. reflexivity. Qed.

(** ** Operations on packages *)

Lemma appendNames_invalid who packs args :
  existsb invalid packs = true ->
  appendNames who packs args = Error (who +:+ ": Invalid package with empty Name").
Proof.
  revert args. induction packs as [|[p|] packs IH]; intros args H; simpl in *.
  - discriminate.
  - destruct (String.eqb (Name p) ""); simpl in H; [reflexivity | auto].
  - reflexivity.
Qed.

Lemma appendNames_valid who packs args :
  existsb invalid packs = false ->
  appendNames who packs args = Ok (args ++ names packs).
Proof.
  revert args. induction packs as [|[p|] packs IH]; intros args H; simpl in *.
  - by rewrite app_nil_r.
  - destruct (String.eqb (Name p) ""); simpl in H; [discriminate|].
    rewrite IH by assumption. unfold names; simpl. by rewrite <- app_assoc.
  - discriminate.
Qed.

(** C8: [Install], [Remove] and [Upgrade] fail with "Invalid package with
    empty Name" and leave the list of issued commands as it was when a
    target is nil or has an empty name; otherwise they issue the one
    command [apt-get <sub> -y name...] for all targets. *)
Theorem operations_validate_then_invoke_once (packs : list (option Package)) (w : World) :
  Install packs w = batch "apt.Install" "install" packs w
  /\ Remove packs w = batch "apt.Remove" "remove" packs w
  /\ Upgrade packs w = batch "apt.Upgrade" "upgrade" packs w
  /\ (forall who sub,
        issued (snd (batch who sub packs w)) =
        if existsb invalid packs then issued w
        else issued w ++ [Command "apt-get" ([sub; "-y"] ++ names packs)]).
Proof.
  unfold Install, Remove, Upgrade, batch.
  destruct (existsb invalid packs) eqn:E.
  - rewrite !appendNames_invalid by assumption. auto.
  - rewrite !appendNames_valid by assumption. auto.
Qed.

(** C10: [Upgrade] without packages is [UpgradeAll]: it runs
    [apt-get upgrade -y] and returns what the tool returns. *)
Theorem Upgrade_nil_is_UpgradeAll (w : World) :
  Upgrade [] w = UpgradeAll w
  /\ Upgrade [] w =
       ((combined (tool w (Command "apt-get" ["upgrade"; "-y"])),
         exit_error (tool w (Command "apt-get" ["upgrade"; "-y"]))),
        mkWorld (tool w) (issued w ++ [Command "apt-get" ["upgrade"; "-y"]])).
Proof.
  split; reflexivity.
Qed.

(** ** The dependency list *)

Lemma keep_first_filter (P : string -> Prop) `{!forall x, Decision (P x)} l :
  keep_first (filter P l) = filter P (keep_first l).
Proof.
  induction l as [|x l IH]; [reflexivity|].
  rewrite filter_cons. destruct (decide (P x)) as [HP|HP]; simpl.
  - rewrite filter_cons_True by assumption. rewrite IH.
    f_equal. rewrite !list_filter_filter. apply list_filter_iff. tauto.
  - rewrite filter_cons_False by assumption. rewrite IH.
    rewrite list_filter_filter. apply list_filter_iff.
    intros y. split; [|tauto]. intros Hy. split; [assumption|congruence].
Qed.

Lemma filter_all {A} (P : A -> Prop) `{!forall x, Decision (P x)} (l : list A) :
  (forall x, P x) -> filter P l = l.
Proof.
  intros HP. induction l as [|x l IH]; [reflexivity|].
  rewrite filter_cons_True by apply HP. by rewrite IH.
Qed.

Lemma depLoop_spec name splitOutput (depSeen : gset string) depList :
  depLoop name splitOutput depSeen depList =
  depList ++
    keep_first
      (filter (fun n => n ∉ depSeen)
         (filter (fun n => n <> "" /\ n <> name)
            (map (fun line => last_token (Str.split " " line)) splitOutput))).
Proof.
  revert depSeen depList.
  induction splitOutput as [|dep rest IH]; intros depSeen depList; simpl.
  { by rewrite app_nil_r. }
  set (tok := last_token (Str.split " " dep)).
  assert (Hskip : (0 <? length (Str.split " " dep))%nat = false -> tok = "").
  { intros H. apply Nat.ltb_ge in H. unfold tok.
    destruct (Str.split " " dep); [reflexivity | simpl in H; lia]. }
  destruct (String.eqb_spec tok "") as [E1|E1].
  { rewrite (filter_cons_False _ tok) by tauto.
    destruct (0 <? length (Str.split " " dep))%nat; simpl; apply IH. }
  destruct (0 <? length (Str.split " " dep))%nat; [|by destruct E1; auto].
  simpl. destruct (String.eqb_spec tok name) as [E2|E2].
  { rewrite (filter_cons_False _ tok) by tauto. apply IH. }
  rewrite (filter_cons_True _ tok) by tauto.
  case_bool_decide as E3.
  { rewrite (filter_cons_False _ tok) by tauto. apply IH. }
  rewrite (filter_cons_True _ tok) by assumption. simpl.
  rewrite IH, <- app_assoc. simpl. do 2 f_equal.
  rewrite <- keep_first_filter. f_equal.
  clear Hskip.
  generalize (filter (fun n => n <> "" /\ n <> name)
                (map (fun line => last_token (Str.split " " line)) rest)).
  intros cands. rewrite list_filter_filter. apply list_filter_iff.
  intros y. rewrite elem_of_union, elem_of_singleton. tauto.
Qed.

(** C7: when the tool succeeds, [GetDependencies] returns the list the
    specification describes (lines reversed, last space-separated token,
    empty and own name skipped, first occurrences kept); for the lines
    "", "libc6", "libfoo", "mypkg" and the package "mypkg" that list is
    "libfoo", "libc6". *)
Theorem GetDependencies_spec (p : Package) (w : World) :
  Name p <> "" ->
  exit_error (tool w (Command "apt-cache" ["depends"; "-i"; "--recurse"; Name p])) = None ->
  fst (GetDependencies (Some p) w) =
    Ok (dependencies_spec (Name p)
          (Str.split "010"
             (stdout (tool w (Command "apt-cache"
                                ["depends"; "-i"; "--recurse"; Name p])))))
  /\ depLoop "mypkg" (rev [""; "libc6"; "libfoo"; "mypkg"]) ∅ [] = ["libfoo"; "libc6"]
  /\ dependencies_spec "mypkg" [""; "libc6"; "libfoo"; "mypkg"] = ["libfoo"; "libc6"].
Proof.
  intros Hname Hexit. split; [|split; vm_compute; reflexivity].
  unfold GetDependencies, Output, run.
  destruct (String.eqb_spec (Name p) ""); [contradiction|]. simpl.
  rewrite Hexit. simpl. f_equal.
  unfold dependenciesOf, dependencies_spec. rewrite depLoop_spec. simpl.
  f_equal. apply filter_all. intros y. set_solver.
Qed.

Lemma GetDependencies_spec_witness :
  fst (GetDependencies (Some (mkPackage "mypkg" "" "" "" "" 0)) mypkg_world)
  = Ok ["libfoo"; "libc6"].
Proof.
  exact (proj1 (GetDependencies_spec (mkPackage "mypkg" "" "" "" "" 0) mypkg_world
                  ltac:(discriminate) eq_refl)).
Defined.

(** ** Splitting at a separator *)


Lemma split_app_sep sep w s :
  Str.all (other_than sep) w = true ->
  Str.split sep (w +:+ String sep s) = w :: Str.split sep s.
Proof.
  induction w as [|a w IH]; simpl; intros H.
  { rewrite ?append_nil_l. simpl. by rewrite Ascii.eqb_refl. }
  apply andb_true_iff in H as [Ha H]. rewrite ?append_cons. simpl.
  unfold other_than in Ha. destruct (Ascii.eqb a sep); [discriminate|].
  by rewrite IH.
Qed.



(** ** Lines *)

Lemma all_impl (p q : ascii -> bool) s :
  (forall a, p a = true -> q a = true) ->
  Str.all p s = true -> Str.all q s = true.
Proof.
  intros Hpq. induction s as [|a s IH]; simpl; [reflexivity|].
  intros [Ha Hs]%andb_true_iff. rewrite (Hpq a Ha). auto.
Qed.

Lemma all_app p s t :
  Str.all p (s +:+ t) = Str.all p s && Str.all p t.
Proof.
  induction s as [|a s IH]; rewrite ?append_nil_l, ?append_cons; simpl;
    [reflexivity|].
  by rewrite IH, andb_assoc.
Qed.

Lemma split_no_sep sep w :
  Str.all (other_than sep) w = true -> Str.split sep w = [w].
Proof.
  induction w as [|a w IH]; simpl; [reflexivity|].
  intros [Ha H]%andb_true_iff. unfold other_than in Ha.
  destruct (Ascii.eqb a sep); [discriminate|]. by rewrite IH.
Qed.

Lemma unlines_app ls t :
  unlines ls +:+ t =
  match ls with
  | [] => t
  | l :: ls' => l +:+ String "010" (unlines ls' +:+ t)
  end.
Proof.
  destruct ls as [|l ls]; simpl; [apply append_nil_l|].
  by rewrite append_assoc, append_cons.
Qed.

Lemma split_unlines_app ls t :
  Forall (fun l => Str.all (other_than "010") l = true) ls ->
  Str.split "010" (unlines ls +:+ t) = ls ++ Str.split "010" t.
Proof.
  induction 1 as [|l ls Hl _ IH]; rewrite unlines_app; [reflexivity|].
  rewrite split_app_sep by assumption. by rewrite IH.
Qed.

Lemma drop_last_empty_app good l :
  l <> [] ->
  bufio.drop_last_empty (good ++ l) = good ++ bufio.drop_last_empty l.
Proof.
  intros Hl. induction good as [|g good IH]; [reflexivity|].
  destruct l as [|y l]; [contradiction|].
  change ((g :: good) ++ y :: l) with (g :: (good ++ y :: l)).
  destruct (good ++ y :: l) as [|z zs] eqn:E.
  { by destruct good. }
  rewrite drop_last_empty_cons, IH. reflexivity.
Qed.

Lemma dropCR_id l :
  Str.all (other_than "013") l = true -> bufio.dropCR l = l.
Proof.
  induction l as [|a l IH]; [reflexivity|].
  intros [Ha H]%andb_true_iff. unfold other_than in Ha.
  destruct l as [|b l].
  - destruct (Ascii.eqb_spec a "013"); [discriminate|].
    destruct a as [[] [] [] [] [] [] [] []]; try reflexivity. contradiction.
  - transitivity (String a (bufio.dropCR (String b l))).
    + destruct a as [[] [] [] [] [] [] [] []]; reflexivity.
    + by rewrite IH.
Qed.

Lemma scanned_spec l :
  scanned l = true ->
  Str.all (other_than "010") l = true
  /\ Str.all (other_than "013") l = true
  /\ String.length l < bufio.MaxScanTokenSize.
Proof.
  unfold scanned. intros [Ha Hl]%andb_true_iff. repeat split.
  - eapply all_impl; [|exact Ha]. intros a [H _]%andb_true_iff. exact H.
  - eapply all_impl; [|exact Ha]. intros a [_ H]%andb_true_iff. exact H.
  - by apply Nat.ltb_lt.
Qed.

Lemma take_while_app {A} (p : A -> bool) good l :
  Forall (fun x => p x = true) good ->
  bufio.take_while p (good ++ l) = good ++ bufio.take_while p l.
Proof.
  induction 1 as [|x good Hx _ IH]; simpl; [reflexivity|].
  by rewrite Hx, IH.
Qed.

(** The scanner returns the lines before a line that does not fit its
    buffer, and nothing from that line on. *)
Lemma ScanLines_long ls long rest :
  Forall (fun l => scanned l = true) ls ->
  Str.all (other_than "010") long = true ->
  bufio.MaxScanTokenSize <= String.length long ->
  head_in (other_than "010") rest = false ->
  bufio.ScanLines (unlines ls +:+ long +:+ rest) = ls.
Proof.
  intros Hls Hlong Hlen Hrest. unfold bufio.ScanLines.
  rewrite split_unlines_app
    by (eapply Forall_impl; [exact Hls|]; intros l Hl; exact (proj1 (scanned_spec _ Hl))).
  assert (Hne : long <> "").
  { intros ->. unfold bufio.MaxScanTokenSize in Hlen.
    simpl String.length in Hlen. lia. }
  assert (Hsplit : exists more, Str.split "010" (long +:+ rest) = long :: more).
  { destruct rest as [|a rest].
    - rewrite append_nil_r, split_no_sep by assumption. eauto.
    - simpl in Hrest. unfold other_than in Hrest.
      apply negb_false_iff in Hrest. apply Ascii.eqb_eq in Hrest as ->.
      rewrite split_app_sep by assumption. eauto. }
  destruct Hsplit as (more & ->).
  rewrite drop_last_empty_app by discriminate.
  assert (Hd : exists more', bufio.drop_last_empty (long :: more) = long :: more').
  { destruct more as [|y more].
    - destruct long; [contradiction|]. simpl. eauto.
    - rewrite drop_last_empty_cons. eauto. }
  destruct Hd as (more' & ->).
  rewrite take_while_app.
  2:{ eapply Forall_impl; [exact Hls|]. intros l Hl.
      apply scanned_spec in Hl as (_ & _ & Hl). by apply Nat.ltb_lt. }
  simpl. apply Nat.ltb_ge in Hlen. rewrite Hlen, app_nil_r.
  clear -Hls. induction Hls as [|l ls Hl _ IH]; simpl; [reflexivity|].
  apply scanned_spec in Hl as (_ & Hl & _). by rewrite dropCR_id, IH.
Qed.

(** The scanner returns the lines of a text that ends each with a
    newline. *)
Lemma ScanLines_unlines ls :
  Forall (fun l => scanned l = true) ls -> bufio.ScanLines (unlines ls) = ls.
Proof.
  intros Hls. unfold bufio.ScanLines.
  rewrite <- (append_nil_r (unlines ls)).
  rewrite split_unlines_app
    by (eapply Forall_impl; [exact Hls|]; intros l Hl; exact (proj1 (scanned_spec _ Hl))).
  simpl Str.split. rewrite drop_last_empty_app by discriminate.
  simpl. rewrite app_nil_r.
  rewrite take_while_all.
  2:{ eapply Forall_impl; [exact Hls|]. intros l Hl.
      apply scanned_spec in Hl as (_ & _ & Hl). by apply Nat.ltb_lt. }
  induction Hls as [|l ls Hl _ IH]; simpl; [reflexivity|].
  apply scanned_spec in Hl as (_ & Hl & _). by rewrite dropCR_id, IH.
Qed.

(** ** Long lines and unreadable files *)

(** X5: a line of 65536 bytes or more ends the reading of a config file
    without an error: [parseAPTConfigFile] returns the records of the
    lines before it, and nothing of what follows. *)
Theorem parseAPTConfigFile_long_line (fs : FS) (configPath : string)
    (ls : list string) (long rest : string) :
  os.ReadFile fs configPath = Ok (unlines ls +:+ long +:+ rest) ->
  Forall (fun l => scanned l = true) ls ->
  Str.all (other_than "010") long = true ->
  bufio.MaxScanTokenSize <= String.length long ->
  head_in (other_than "010") rest = false ->
  parseAPTConfigFile fs configPath = Ok (omap parseAPTConfigLine ls).
Proof.
  intros Hread Hls Hlong Hlen Hrest.
  rewrite (parseAPTConfigFile_readable _ _ _ Hread). unfold recordsOf.
  by rewrite ScanLines_long.
Qed.

Lemma parseAPTConfigFile_long_line_witness :
  parseAPTConfigFile long_second_line "/etc/apt/sources.list" = Ok [focal].
Proof.
  rewrite (parseAPTConfigFile_long_line long_second_line
             "/etc/apt/sources.list" [focal_line]
             (bytes_of bufio.MaxScanTokenSize "x")
             (String "010" (unlines ["deb http://b/ stable main"]))).
  - vm_compute. reflexivity.
  - reflexivity.
  - repeat constructor.
  - vm_compute. reflexivity.
  - apply Nat.leb_le. vm_compute. reflexivity.
  - reflexivity.
Defined.

Lemma parseSources_unreadable fs good bad rest res err :
  Forall (fun source => exists data, os.ReadFile fs source = Ok data) good ->
  os.ReadFile fs bad = Error err ->
  parseSources fs (good ++ bad :: rest) res =
  Error ("Parsing " +:+ bad +:+ ": " +:+
         ("Reading " +:+ bad +:+ ": " +:+ PathError_Error err)).
Proof.
  intros Hgood Hbad. revert res.
  induction Hgood as [|source good [data Hs] _ IH]; intros res; simpl.
  - unfold parseAPTConfigFile. by rewrite Hbad.
  - rewrite (parseAPTConfigFile_readable _ _ _ Hs). apply IH.
Qed.

(** X6: the first file of the folder that cannot be read makes the whole
    parse fail with "Parsing <file>: Reading <file>: ..." and no records,
    whatever the files before and after it hold; [AddRepository] then fails
    with "parsing APT config: ..." and changes nothing. *)
Theorem ParseAPTConfigFolder_unreadable (fs : FS) (folderPath : string)
    (entries good rest : list string) (bad : string) (err : PathError)
    (repo : Repository) :
  os.ReadDir fs (filepath.Join [folderPath; "sources.list.d"]) = Ok entries ->
  sourcesOf folderPath entries = good ++ bad :: rest ->
  Forall (fun source => exists data, os.ReadFile fs source = Ok data) good ->
  os.ReadFile fs bad = Error err ->
  ParseAPTConfigFolder fs folderPath =
    Error ("Parsing " +:+ bad +:+ ": " +:+
           ("Reading " +:+ bad +:+ ": " +:+ PathError_Error err))
  /\ AddRepository repo folderPath fs =
     (Some ("parsing APT config: " +:+
            ("Parsing " +:+ bad +:+ ": " +:+
             ("Reading " +:+ bad +:+ ": " +:+ PathError_Error err))), fs).
Proof.
  intros Hdir Hsources Hgood Hbad.
  assert (H : ParseAPTConfigFolder fs folderPath =
              Error ("Parsing " +:+ bad +:+ ": " +:+
                     ("Reading " +:+ bad +:+ ": " +:+ PathError_Error err))).
  { unfold ParseAPTConfigFolder. rewrite Hdir, listSources_spec.
    change ([filepath.Join [folderPath; "sources.list"]] ++ ?l)
      with (filepath.Join [folderPath; "sources.list"] :: l).
    fold (sourcesOf folderPath entries). rewrite Hsources.
    by apply parseSources_unreadable. }
  split; [exact H|]. unfold AddRepository. by rewrite H.
Qed.

Lemma ParseAPTConfigFolder_unreadable_witness :
  ParseAPTConfigFolder etc_apt_dir_entry "/etc/apt" =
    Error "Parsing /etc/apt/sources.list.d/old.list: Reading /etc/apt/sources.list.d/old.list: read /etc/apt/sources.list.d/old.list: is a directory"
  /\ AddRepository example_repo "/etc/apt" etc_apt_dir_entry =
     (Some "parsing APT config: Parsing /etc/apt/sources.list.d/old.list: Reading /etc/apt/sources.list.d/old.list: read /etc/apt/sources.list.d/old.list: is a directory",
      etc_apt_dir_entry).
Proof.
  apply (ParseAPTConfigFolder_unreadable etc_apt_dir_entry "/etc/apt"
           ["old.list"; "z.list"] ["/etc/apt/sources.list"]
           ["/etc/apt/sources.list.d/z.list"]
           "/etc/apt/sources.list.d/old.list"
           (mkPathError "read" "/etc/apt/sources.list.d/old.list" EISDIR)).
  - vm_compute. reflexivity.
  - vm_compute. reflexivity.
  - repeat constructor. eexists. vm_compute. reflexivity.
  - vm_compute. reflexivity.
Defined.


(** ** The status entries *)

Lemma parseDpkgQueryLines_cases lines res :
  match parseDpkgQueryLines lines res with
  | Returns pkgs =>
      Forall six_fields lines /\ pkgs = res ++ map packageOfLine lines
  | Panics i n =>
      exists good bad rest,
        lines = good ++ bad :: rest /\ Forall six_fields good
        /\ n = length (Str.split "009" bad) /\ n < 6
        /\ i = if (n <? 5)%nat then 4 else 5
  end.
Proof.
  revert res. induction lines as [|line lines IH]; intros res.
  { simpl. by rewrite app_nil_r. }
  destruct (decide (six_fields line)) as [H6|H6].
  - assert (Hstep : parseDpkgQueryLines (line :: lines) res =
                    parseDpkgQueryLines lines (res ++ [packageOfLine line])).
    { simpl. unfold index, packageOfLine. unfold six_fields in H6.
      destruct (Str.split "009" line) as [|d0 [|d1 [|d2 [|d3 [|d4 [|d5 data]]]]]];
        simpl in H6; try lia. reflexivity. }
    rewrite Hstep. specialize (IH (res ++ [packageOfLine line])).
    destruct (parseDpkgQueryLines lines (res ++ [packageOfLine line])).
    + destruct IH as [HF ->]. split; [by constructor|].
      by rewrite <- app_assoc.
    + destruct IH as (good & bad & rest & -> & HF & Hn & Hlt & Hi).
      exists (line :: good), bad, rest. repeat split; try assumption.
      by constructor.
  - unfold six_fields in H6.
    rewrite parseDpkgQueryLines_short_line by lia.
    exists [], line, lines. repeat split; [constructor | lia].
Qed.

(** X7: [parseDpkgQueryOutput] returns exactly when every line of the
    output has six tab-separated fields or more, and then with one package
    per line, in order; otherwise it panics at the first line with fewer,
    on [data[4]] when the line has up to four fields and on [data[5]]
    when it has five. *)
Theorem parseDpkgQueryOutput_cases (out : string) :
  match parseDpkgQueryOutput out with
  | Returns pkgs =>
      Forall six_fields (bufio.ScanLines out)
      /\ pkgs = map packageOfLine (bufio.ScanLines out)
  | Panics i n =>
      exists good bad rest,
        bufio.ScanLines out = good ++ bad :: rest /\ Forall six_fields good
        /\ n = length (Str.split "009" bad) /\ n < 6
        /\ i = if (n <? 5)%nat then 4 else 5
  end.
Proof.
  unfold parseDpkgQueryOutput.
  apply (parseDpkgQueryLines_cases (bufio.ScanLines out) []).
Qed.



Lemma status_field_spec s :
  status_field s = true ->
  Str.all (other_than "009") s = true
  /\ Str.all (fun a => negb (Ascii.eqb a "010") && negb (Ascii.eqb a "013")) s
     = true.
Proof.
  intros H. split; (eapply all_impl; [|exact H]); intros a Ha;
    apply andb_true_iff in Ha as [[H1 H2]%andb_true_iff H3];
    [exact H1 | by rewrite H2, H3].
Qed.

Lemma split_statusEntry p size :
  printable (p, size) ->
  Str.split "009" (statusEntry p size) =
  [Name p; Architecture p; Status p; Version p; size; ShortDescription p].
Proof.
  intros (H0 & H1 & H2 & H3 & H4 & H5 & _).
  apply status_field_spec in H0 as [H0 _], H1 as [H1 _], H2 as [H2 _],
    H3 as [H3 _], H4 as [H4 _], H5 as [H5 _].
  unfold statusEntry.
  rewrite !split_app_sep by assumption. by rewrite split_no_sep.
Qed.

Lemma scanned_statusEntry p size :
  printable (p, size) -> scanned (statusEntry p size) = true.
Proof.
  intros (H0 & H1 & H2 & H3 & H4 & H5 & Hlen & _).
  apply status_field_spec in H0 as [_ H0], H1 as [_ H1], H2 as [_ H2],
    H3 as [_ H3], H4 as [_ H4], H5 as [_ H5].
  unfold scanned. apply andb_true_iff. split; [|by apply Nat.ltb_lt].
  unfold statusEntry.
  repeat (rewrite all_app; apply andb_true_iff; split; [assumption|];
          simpl; try assumption).
Qed.

(** X8: [parseDpkgQueryOutput] reads back what dpkg-query prints under
    the format of [Search]: for packages whose fields hold no tab, newline
    or carriage return and whose entries fit the buffer of the scanner, the
    entries, a newline after each, give back the packages in order.  The
    size is the number that Installed-Size spells, and 0 when it spells
    none. *)
Theorem parseDpkgQueryOutput_statusEntries (rows : list (Package * string)) :
  Forall printable rows ->
  parseDpkgQueryOutput
    (unlines (map (fun row => statusEntry (fst row) (snd row)) rows))
  = Returns (map fst rows).
Proof.
  intros H. unfold parseDpkgQueryOutput.
  rewrite ScanLines_unlines.
  2:{ apply Forall_fmap. eapply Forall_impl; [exact H|].
      intros [p size] Hp. by apply scanned_statusEntry. }
  rewrite parseDpkgQueryLines_six_fields.
  2:{ apply Forall_fmap. eapply Forall_impl; [exact H|].
      intros [p size] Hp. simpl. by rewrite split_statusEntry. }
  simpl. f_equal. rewrite map_map.
  induction H as [|[p size] rows Hp _ IH]; simpl; [reflexivity|].
  rewrite IH. f_equal. unfold packageOfLine.
  rewrite split_statusEntry by assumption. simpl.
  destruct Hp as (_ & _ & _ & _ & _ & _ & _ & <-). by destruct p.
Qed.

Lemma parseDpkgQueryOutput_statusEntries_witness :
  parseDpkgQueryOutput
    (unlines [statusEntry bash_installed "7164"; statusEntry zsh_not_installed ""])
  = Returns [bash_installed; zsh_not_installed].
Proof.
  apply (parseDpkgQueryOutput_statusEntries
           [(bash_installed, "7164"); (zsh_not_installed, "")]).
  constructor; [|constructor; [|constructor]];
    (unfold printable; repeat split; apply Nat.ltb_lt; vm_compute; reflexivity).
Defined.


(** ** Searching the installed packages *)




(** ** The upgradable packages *)









(** ** Installing without installing, and downloading *)

(** X11: [InstallDry] checks its targets as [Install] does and fails with
    the same error, which names apt.Install, without running a command;
    otherwise it runs the one command
    [apt-get install -y --dry-run name...]. *)
Theorem InstallDry_spec (packs : list (option Package)) (w : World) :
  InstallDry packs w =
    (if existsb invalid packs
     then (("", Some "apt.Install: Invalid package with empty Name"), w)
     else (let cmd := Command "apt-get"
                        (["install"; "-y"; "--dry-run"] ++ names packs) in
           ((combined (tool w cmd), exit_error (tool w cmd)),
            mkWorld (tool w) (issued w ++ [cmd]))))
  /\ (existsb invalid packs = true -> InstallDry packs w = Install packs w).
Proof.
  unfold InstallDry, Install. destruct (existsb invalid packs) eqn:E.
  - rewrite !appendNames_invalid by assumption. auto.
  - rewrite appendNames_valid by assumption. split; [reflexivity|discriminate].
Qed.

Section DownloadProperties.

Variable MkdirAll : string -> perm -> FS -> option error * FS.

(** X12: [Download] checks the package first: for nil or an empty name it
    fails without creating a directory and without running a command.
    Then it creates [targetPath/partial]; when that fails it returns the
    error of [os.MkdirAll] and runs no command.  Otherwise it runs the one
    command [apt-get install -y --reinstall --download-only ...] with the
    target path in quotes and the name last. *)
Theorem Download_spec (pack : option Package) (targetPath : string) (fs : FS)
    (w : World) :
  let made := MkdirAll (path.Join [targetPath; "partial"]) perm0755 fs in
  (invalid pack = true ->
     Download MkdirAll pack targetPath fs w =
     (("", Some "apt.Download: Invalid package with empty Name"), fs, w))
  /\ (invalid pack = false -> forall err, fst made = Some err ->
        Download MkdirAll pack targetPath fs w = (("", Some err), snd made, w))
  /\ (forall p, pack = Some p -> Name p <> "" -> fst made = None ->
        let cmd :=
          Command "apt-get"
            ["install"; "-y"; "--reinstall"; "--download-only";
             "-o"; "Debug::NoLocking=1";
             "-o"; "Dir::Cache::archives=" +:+ String "034" targetPath
                   +:+ String "034" "";
             Name p] in
        Download MkdirAll pack targetPath fs w =
        ((combined (tool w cmd), exit_error (tool w cmd)), snd made,
         mkWorld (tool w) (issued w ++ [cmd]))).
Proof.
  intros made. unfold Download. fold made. repeat split.
  - destruct pack as [p|]; simpl; [|reflexivity]. by intros ->.
  - destruct pack as [p|]; simpl; [|discriminate]. intros -> err.
    destruct made as [e fs']. simpl. by intros ->.
  - intros p -> Hname. destruct (String.eqb_spec (Name p) ""); [contradiction|].
    destruct made as [e fs']. simpl. by intros ->.
Qed.

End DownloadProperties.

(** ** What the dependency list holds *)

Lemma NoDup_keep_first l : NoDup (keep_first l).
Proof.
  induction l as [|x l IH]; simpl; constructor.
  - rewrite list_elem_of_filter. tauto.
  - by apply NoDup_filter.
Qed.

Lemma elem_of_rev {A} (x : A) (l : list A) : x ∈ rev l <-> x ∈ l.
Proof.
  induction l as [|y l IH]; simpl; [reflexivity|].
  rewrite elem_of_app, !elem_of_cons, IH, elem_of_nil. tauto.
Qed.

Lemma elem_of_keep_first x l : x ∈ keep_first l <-> x ∈ l.
Proof.
  induction l as [|y l IH]; simpl; [reflexivity|].
  rewrite !elem_of_cons, list_elem_of_filter, IH.
  destruct (decide (x = y)); tauto.
Qed.

(** X13: the list [GetDependencies] returns has no duplicates and holds
    neither the empty name nor the name of the package itself; its elements
    are the last space-separated tokens of the lines of the output. *)
Theorem GetDependencies_invariants (pack : option Package) (w : World)
    (deps : list string) :
  fst (GetDependencies pack w) = Ok deps ->
  exists p,
    pack = Some p
    /\ NoDup deps
    /\ ("" ∉ deps)
    /\ (Name p ∉ deps)
    /\ (forall d, d ∈ deps <->
          d <> "" /\ d <> Name p /\
          exists line,
            line ∈ Str.split "010"
                     (stdout (tool w (Command "apt-cache"
                                ["depends"; "-i"; "--recurse"; Name p])))
            /\ last_token (Str.split " " line) = d).
Proof.
  unfold GetDependencies, Output, run.
  destruct pack as [p|]; [|discriminate].
  destruct (String.eqb (Name p) ""); [discriminate|]. simpl.
  destruct (exit_error _); [discriminate|]. simpl. intros [= <-].
  exists p. split; [reflexivity|].
  unfold dependenciesOf. rewrite depLoop_spec. simpl.
  set (lines := Str.split "010" _).
  match goal with
  | |- context [keep_first ?l] =>
      assert (Hin : forall d,
        d ∈ keep_first l
        <-> d <> "" /\ d <> Name p /\
            exists line, line ∈ lines /\ last_token (Str.split " " line) = d)
  end.
  { intros d. rewrite elem_of_keep_first, !list_elem_of_filter, list_elem_of_fmap.
    split.
    - intros (_ & [H1 H2] & line & -> & Hl). repeat split; try assumption.
      exists line. split; [by rewrite elem_of_rev in Hl | reflexivity].
    - intros (H1 & H2 & line & Hl & <-). repeat split; try assumption.
      + set_solver.
      + exists line. split; [reflexivity | by rewrite elem_of_rev]. }
  split; [apply NoDup_keep_first|].
  split; [intros H; apply Hin in H; tauto|].
  split; [intros H; apply Hin in H; tauto|].
  exact Hin.
Qed.

Lemma GetDependencies_invariants_witness :
  exists p,
    Some (mkPackage "mypkg" "" "" "" "" 0) = Some p
    /\ NoDup ["libfoo"; "libc6"]
    /\ ("" ∉ ["libfoo"; "libc6"])
    /\ (Name p ∉ ["libfoo"; "libc6"])
    /\ (forall d, d ∈ ["libfoo"; "libc6"] <->
          d <> "" /\ d <> Name p /\
          exists line,
            line ∈ Str.split "010"
                     (stdout (tool mypkg_world (Command "apt-cache"
                                ["depends"; "-i"; "--recurse"; Name p])))
            /\ last_token (Str.split " " line) = d).
Proof.
  apply (GetDependencies_invariants (Some (mkPackage "mypkg" "" "" "" "" 0))
           mypkg_world).
  vm_compute. reflexivity.
Defined.
